(** * Tesseract: black-bar cut detection, segment planning and crop geometry

    A shallow embedding of the Python package [tesseract]
    ([models.py], [detector.py], [analyzer.py], [utils.py]) together with the
    properties its specification states about it.

    Conventions of the embedding.
    - Python [int] is [Z]; Python [float] is the kernel's binary64 [float].
    - A 2-D [numpy] array is a shape together with an indexing function, so
      that arrays with a zero dimension exist as they do in [numpy].
    - [np.mean] of an integer line is the exact rational mean, and is NaN
      (here [None]) on an empty line; a comparison with NaN is false.
    - A raised exception is the [Err] case of [Result]. *)

From Stdlib Require Import ZArith List Bool String Ascii QArith Lia.
From Stdlib Require Import DecimalString Sorted.
From Stdlib Require DecimalZ DecimalPos.
From Stdlib Require Import Floats.PrimFloat Uint63.
Import ListNotations.

Local Open Scope Z_scope.

(** ** Exceptions and the error monad *)

Inductive Exception : Type :=
| ValueError (msg : string)
| ZeroDivisionError.

Inductive Result (A : Type) : Type :=
| Ok (a : A)
| Err (e : Exception).

Arguments Ok {A} a.
Arguments Err {A} e.

Definition bind {A B : Type} (m : Result A) (k : A -> Result B) : Result B :=
  match m with
  | Ok a => k a
  | Err e => Err e
  end.

Notation "x <- m ;; k" := (bind m (fun x => k))
  (at level 61, m at next level, right associativity).

(** ** Python formatting of integers *)

(** [str(n)] and the replacement field [{n}] of an f-string. *)
Definition str_int (n : Z) : string := NilZero.string_of_int (Z.to_int n).

(** The replacement field [{n:02d}]: sign-aware zero padding to width two. *)
Definition fmt_02d (n : Z) : string :=
  if (0 <=? n) && (n <? 10) then String "0" (str_int n) else str_int n.

(** ** models.py *)

Module Models.

Record BarState : Type := mkBarState {
  left_width : Z;
  right_width : Z;
  top_height : Z;
  bottom_height : Z
}.

(** [BarState.__eq__] on two bar states. *)
Definition BarState_eq (self other : BarState) : bool :=
  (left_width self =? left_width other)
  && (right_width self =? right_width other)
  && (top_height self =? top_height other)
  && (bottom_height self =? bottom_height other).

Record CutEvent : Type := mkCutEvent {
  timestamp : float;
  frame_number : Z;
  before_state : BarState;
  after_state : BarState
}.

End Models.

Export Models.

(** ** numpy arrays and the part of OpenCV the package calls *)

(** A single-channel image: [shape = (rows, cols)], [gray[r, c] = pixel r c]. *)
Record GrayImage : Type := mkGray {
  g_rows : nat;
  g_cols : nat;
  g_pixel : nat -> nat -> Z
}.

(** A multi-channel image: [shape = (rows, cols, channels)]. *)
Record ColourImage : Type := mkColour {
  c_rows : nat;
  c_cols : nat;
  c_channels : nat;
  c_pixel : nat -> nat -> nat -> Z
}.

(** A decoded frame; the constructor records [len(frame.shape)]. *)
Inductive ndarray : Type :=
| Array2D (g : GrayImage)
| Array3D (c : ColourImage).

(** What [cv2.VideoCapture(path)] gives: whether it opened, two properties,
    and the frames that [read()] returns with [ret = True], in order. *)
Record Capture : Type := mkCapture {
  isOpened : bool;
  CAP_PROP_FPS : float;
  CAP_PROP_FRAME_COUNT : Z;
  cap_frames : list ndarray
}.

(** The OpenCV functions used by the package.  They are external to it, so
    the development is parametric in them; of the colour conversion it uses
    only that the result has the rows and columns of its argument. *)
Class cv2 : Type := {
  cvtColor_BGR2GRAY : ColourImage -> GrayImage;
  cvtColor_rows : forall c, g_rows (cvtColor_BGR2GRAY c) = c_rows c;
  cvtColor_cols : forall c, g_cols (cvtColor_BGR2GRAY c) = c_cols c;
  VideoCapture : string -> Capture
}.

(** [gray[:, col]] and [gray[row, :]]. *)
Definition column (gray : GrayImage) (col : nat) : list Z :=
  map (fun r => g_pixel gray r col) (seq 0 (g_rows gray)).

Definition row_of (gray : GrayImage) (row : nat) : list Z :=
  map (fun c => g_pixel gray row c) (seq 0 (g_cols gray)).

Definition sumZ (xs : list Z) : Z := fold_right Z.add 0 xs.

(** [np.mean] of a line of integer pixels: the exact mean, NaN ([None]) on
    an empty line. *)
Definition np_mean (xs : list Z) : option Q :=
  match xs with
  | [] => None
  | _ :: _ => Some (Qmake (sumZ xs) (Pos.of_nat (List.length xs)))
  end.

(** [mean > threshold]; false when the mean is NaN. *)
Definition mean_gt (mean : option Q) (threshold : Z) : bool :=
  match mean with
  | None => false
  | Some q => negb (Qle_bool q (inject_Z threshold))
  end.

(** [mean <= threshold]; false when the mean is NaN. *)
Definition mean_le (mean : option Q) (threshold : Z) : bool :=
  match mean with
  | None => false
  | Some q => Qle_bool q (inject_Z threshold)
  end.

(** [range(n)] and [range(n - 1, -1, -1)]. *)
Definition range (n : nat) : list nat := seq 0 n.

Definition range_down (n : nat) : list nat := rev (seq 0 n).

(** The longest prefix of a list whose elements satisfy [p]. *)
Fixpoint take_while {A : Type} (p : A -> bool) (l : list A) : list A :=
  match l with
  | [] => []
  | x :: l' => if p x then x :: take_while p l' else []
  end.

(** ** detector.py *)

Module Detector.

Record BlackBarDetector : Type := mkDetector {
  black_threshold : Z;
  min_bar_size : Z;
  tolerance_pixels : Z
}.

(** [BlackBarDetector()] with its default arguments. *)
Definition default_detector : BlackBarDetector := mkDetector 10 10 5.

(** The shape of the four scanning loops:
    [for i in idxs: if mean(line i) > threshold: break; size = size_at i]. *)
Fixpoint scan (threshold : Z) (line : nat -> list Z) (size_at : nat -> Z)
    (idxs : list nat) (size : Z) : Z :=
  match idxs with
  | [] => size
  | i :: idxs' =>
      if mean_gt (np_mean (line i)) threshold then size
      else scan threshold line size_at idxs' (size_at i)
  end.

(** [x if x >= self.min_bar_size else 0]. *)
Definition min_size_filter (self : BlackBarDetector) (x : Z) : Z :=
  if x >=? min_bar_size self then x else 0.

Section WithOpenCV.
Context `{CV : cv2}.

(** [cv2.cvtColor(frame, cv2.COLOR_BGR2GRAY) if len(frame.shape) == 3
    else frame]. *)
Definition to_gray (frame : ndarray) : GrayImage :=
  match frame with
  | Array3D c => cvtColor_BGR2GRAY c
  | Array2D g => g
  end.

Definition detect_vertical_bars (self : BlackBarDetector) (frame : ndarray)
  : Z * Z :=
  let gray := to_gray frame in
  let width := g_cols gray in
  let left_width :=
    scan (black_threshold self) (column gray)
         (fun col => Z.of_nat col + 1) (range width) 0 in
  let right_width :=
    scan (black_threshold self) (column gray)
         (fun col => Z.of_nat width - Z.of_nat col) (range_down width) 0 in
  (min_size_filter self left_width, min_size_filter self right_width).

Definition detect_horizontal_bars (self : BlackBarDetector) (frame : ndarray)
  : Z * Z :=
  let gray := to_gray frame in
  let height := g_rows gray in
  let top_height :=
    scan (black_threshold self) (row_of gray)
         (fun row => Z.of_nat row + 1) (range height) 0 in
  let bottom_height :=
    scan (black_threshold self) (row_of gray)
         (fun row => Z.of_nat height - Z.of_nat row) (range_down height) 0 in
  (min_size_filter self top_height, min_size_filter self bottom_height).

Definition get_frame_bar_state (self : BlackBarDetector) (frame : ndarray)
  : BarState :=
  let '(left_width, right_width) := detect_vertical_bars self frame in
  let '(top_height, bottom_height) := detect_horizontal_bars self frame in
  mkBarState left_width right_width top_height bottom_height.

End WithOpenCV.

Definition states_significantly_different (self : BlackBarDetector)
    (state1 state2 : BarState) : bool :=
  (Z.abs (left_width state1 - left_width state2) >? tolerance_pixels self)
  || (Z.abs (right_width state1 - right_width state2) >? tolerance_pixels self)
  || (Z.abs (top_height state1 - top_height state2) >? tolerance_pixels self)
  || (Z.abs (bottom_height state1 - bottom_height state2)
      >? tolerance_pixels self).

End Detector.

Export Detector.

(** ** analyzer.py *)

Module Analyzer.

(** [float(n)] for a frame number [n] below [2^63]. *)
Definition float_of_int (n : Z) : float := PrimFloat.of_uint63 (Uint63.of_Z n).

(** [n / x] for an [int] and a [float]: a zero divisor raises. *)
Definition truediv (n : Z) (x : float) : Result float :=
  if PrimFloat.eqb x PrimFloat.zero then Err ZeroDivisionError
  else Ok (PrimFloat.div (float_of_int n) x).

(** [a % b] on [int]: the sign of the result follows the divisor, as
    [Z.modulo] does; a zero divisor raises. *)
Definition py_mod (a b : Z) : Result Z :=
  if b =? 0 then Err ZeroDivisionError else Ok (a mod b).

Section WithOpenCV.
Context `{CV : cv2}.

(** The body of [while True: ret, frame = cap.read() ...], run on the frames
    still to be read; the three mutable locals are passed along.  The
    progress display has no effect on the result and is left out. *)
Fixpoint read_loop (detector : BlackBarDetector) (sample_rate : Z) (fps : float)
    (frames : list ndarray) (cuts : list CutEvent)
    (previous_state : option BarState) (frame_number : Z)
  : Result (list CutEvent) :=
  match frames with
  | [] => Ok cuts
  | frame :: frames' =>
      r <- py_mod frame_number sample_rate ;;
      if r =? 0 then
        let current_state := get_frame_bar_state detector frame in
        cuts' <- match previous_state with
                 | Some previous =>
                     if states_significantly_different
                          detector previous current_state
                     then
                       timestamp <- truediv frame_number fps ;;
                       Ok (cuts ++ [mkCutEvent timestamp frame_number
                                               previous current_state])
                     else Ok cuts
                 | None => Ok cuts
                 end ;;
        read_loop detector sample_rate fps frames' cuts'
                  (Some current_state) (frame_number + 1)
      else
        read_loop detector sample_rate fps frames' cuts
                  previous_state (frame_number + 1)
  end.

Definition analyze_video (video_path : string) (detector : BlackBarDetector)
    (sample_rate : Z) : Result (list CutEvent) :=
  let cap := VideoCapture video_path in
  if negb (isOpened cap) then
    Err (ValueError ("Could not open video file: " ++ video_path))
  else
    let fps := CAP_PROP_FPS cap in
    read_loop detector sample_rate fps (cap_frames cap) [] None 0.

End WithOpenCV.

End Analyzer.

Export Analyzer.

(** ** utils.py *)

Module Utils.

(** An element of [segments]: the tuple
    [(start_frame, end_frame, segment_name, bar_state)]. *)
Record Segment : Type := mkSegment {
  start_frame : Z;
  end_frame : Z;
  segment_name : string;
  bar_state : option BarState
}.

(** [for i in range(len(cuts) - 1)]: one segment per adjacent pair
    [cuts[i], cuts[i + 1]]; the list argument is [cuts[i:]]. *)
Fixpoint segments_between (cuts : list CutEvent) (i : Z) : list Segment :=
  match cuts with
  | cut :: ((next :: _) as cuts') =>
      mkSegment (frame_number cut) (frame_number next)
                ("segment_" ++ fmt_02d (i + 2)) (Some (after_state cut))
      :: segments_between cuts' (i + 1)
  | _ => []
  end.

(** The segment boundaries computed by [split_video_by_cuts]
    (the block that fills [segments]). *)
Definition split_video_by_cuts_segments (cuts : list CutEvent)
    (total_frames : Z) : list Segment :=
  match cuts with
  | first :: _ =>
      let segments :=
        [mkSegment 0 (frame_number first) "segment_01"%string
                   (Some (before_state first))] in
      let segments := segments ++ segments_between cuts 0 in
      let last_cut := last cuts first in
      let last_cut_frame := frame_number last_cut in
      if last_cut_frame <? total_frames then
        segments ++
        [mkSegment last_cut_frame total_frames
                   ("segment_" ++ fmt_02d (Z.of_nat (List.length cuts) + 1))
                   (Some (after_state last_cut))]
      else segments
  | [] => [mkSegment 0 total_frames "segment_01" None]
  end.

Definition _calculate_crop_filter (bar_state : BarState) (width height : Z)
  : string :=
  let crop_width := width - left_width bar_state - right_width bar_state in
  let crop_height := height - top_height bar_state - bottom_height bar_state in
  let has_bars :=
    (left_width bar_state >? 0)
    || (right_width bar_state >? 0)
    || (top_height bar_state >? 0)
    || (bottom_height bar_state >? 0) in
  if has_bars && (crop_width >? 0) && (crop_height >? 0)
     && (crop_width >=? 64) && (crop_height >=? 64)
  then
    ("crop=" ++ str_int crop_width ++ ":" ++ str_int crop_height ++ ":"
     ++ str_int (left_width bar_state) ++ ":"
     ++ str_int (top_height bar_state))%string
  else ""%string.

(** The arguments that [_split_with_ffmpeg_frame_accurate] adds to the
    encoder command for cropping (the block under
    "Add cropping filter if black bars are detected"). *)
Definition crop_arguments (bar_state : option BarState) (width height : Z)
  : list string :=
  match bar_state with
  | Some state =>
      if (width >? 0) && (height >? 0) then
        let crop_filter := _calculate_crop_filter state width height in
        if (crop_filter =? "")%string then [] else ["-vf"%string; crop_filter]
      else []
  | None => []
  end.

End Utils.

Export Utils.

(** ** Vocabulary of the specification *)

(** [frame.shape[0]] and [frame.shape[1]]. *)
Definition frame_height (frame : ndarray) : nat :=
  match frame with
  | Array2D g => g_rows g
  | Array3D c => c_rows c
  end.

Definition frame_width (frame : ndarray) : nat :=
  match frame with
  | Array2D g => g_cols g
  | Array3D c => c_cols c
  end.

(** The scanning loops go on past a line when its mean is not above the
    threshold. *)
Definition dark (threshold : Z) (line : nat -> list Z) (i : nat) : bool :=
  negb (mean_gt (np_mean (line i)) threshold).

(** A column (row) is black when its mean luminance is at most the
    threshold. *)
Definition col_black (d : BlackBarDetector) (gray : GrayImage) (col : nat)
  : bool :=
  mean_le (np_mean (column gray col)) (black_threshold d).

Definition row_black (d : BlackBarDetector) (gray : GrayImage) (row : nat)
  : bool :=
  mean_le (np_mean (row_of gray row)) (black_threshold d).

(** Length of the longest prefix of black columns, from column 0 rightward. *)
Definition black_prefix_len (d : BlackBarDetector) (gray : GrayImage) : nat :=
  List.length (take_while (col_black d gray) (range (g_cols gray))).

(** Every column mean and every row mean is at most the threshold. *)
Definition fully_black (d : BlackBarDetector) (gray : GrayImage) : Prop :=
  (forall col, (col < g_cols gray)%nat -> col_black d gray col = true)
  /\ (forall row, (row < g_rows gray)%nat -> row_black d gray row = true).

(** A measured size is no bar at all, or a bar of at least the minimum size
    that fits in the dimension [D]. *)
Definition zero_or_bar (d : BlackBarDetector) (D x : Z) : Prop :=
  x = 0 \/ (min_bar_size d <= x <= D).

(** Some field differs by strictly more than the tolerance. *)
Definition exceeds_tolerance (tol : Z) (s1 s2 : BarState) : Prop :=
  Z.abs (left_width s1 - left_width s2) > tol
  \/ Z.abs (right_width s1 - right_width s2) > tol
  \/ Z.abs (top_height s1 - top_height s2) > tol
  \/ Z.abs (bottom_height s1 - bottom_height s2) > tol.

(** The data model's bar states: four non-negative sizes. *)
Definition nonneg_state (s : BarState) : Prop :=
  0 <= left_width s /\ 0 <= right_width s
  /\ 0 <= top_height s /\ 0 <= bottom_height s.

(** The frames of a video with their frame numbers and measured states,
    counting from [n]. *)
Fixpoint numbered `{CV : cv2} (d : BlackBarDetector) (n : Z)
    (frames : list ndarray) : list (Z * BarState) :=
  match frames with
  | [] => []
  | frame :: frames' =>
      (n, get_frame_bar_state d frame) :: numbered d (n + 1) frames'
  end.

(** The visited frames: those whose number is a multiple of the sample
    rate. *)
Definition visited_of (sample_rate : Z) (l : list (Z * BarState))
  : list (Z * BarState) :=
  filter (fun p => fst p mod sample_rate =? 0) l.

Definition visited `{CV : cv2} (d : BlackBarDetector) (sample_rate : Z)
    (frames : list ndarray) : list (Z * BarState) :=
  visited_of sample_rate (numbered d 0 frames).

(** A cut event without its timestamp. *)
Definition event_core (c : CutEvent) : Z * BarState * BarState :=
  (frame_number c, before_state c, after_state c).

(** The significant changes between neighbours in a list of visited frames,
    [prev] being the state seen before the list starts. *)
Fixpoint changes (d : BlackBarDetector) (prev : option BarState)
    (v : list (Z * BarState)) : list (Z * BarState * BarState) :=
  match v with
  | [] => []
  | (n, cur) :: v' =>
      match prev with
      | Some p =>
          if states_significantly_different d p cur
          then (n, p, cur) :: changes d (Some cur) v'
          else changes d (Some cur) v'
      | None => changes d (Some cur) v'
      end
  end.

(** Each segment starts where the one before it ends. *)
Definition chained (segs : list Segment) : Prop :=
  forall i s1 s2,
    nth_error segs i = Some s1 -> nth_error segs (S i) = Some s2 ->
    start_frame s2 = end_frame s1.

(** The segments cover [[0, total_frames)] from end to end: the first starts
    at 0, they are chained, and the last ends at [total_frames]. *)
Definition partitions (segs : list Segment) (total_frames : Z) : Prop :=
  option_map start_frame (hd_error segs) = Some 0
  /\ chained segs
  /\ option_map end_frame (hd_error (rev segs)) = Some total_frames.

(** [segs] lead from frame [start] to frame [stop] without a gap. *)
Fixpoint linked (start : Z) (segs : list Segment) (stop : Z) : Prop :=
  match segs with
  | [] => start = stop
  | s :: segs' => start_frame s = start /\ linked (end_frame s) segs' stop
  end.

(** The cut frames lie in [[0, total_frames]] in non-decreasing order. *)
Definition cuts_in_order (cuts : list CutEvent) (total_frames : Z) : Prop :=
  StronglySorted Z.le (0 :: map frame_number cuts ++ [total_frames]).

(** The last cut, if there is one, is not beyond the end of the video. *)
Definition last_cut_within (cuts : list CutEvent) (total_frames : Z) : Prop :=
  forall c, hd_error (rev cuts) = Some c -> frame_number c <= total_frames.

(** The crop rectangle in source-frame coordinates, and the filter string
    that denotes it. *)
Record CropRectangle : Type := mkCrop {
  crop_x : Z;
  crop_y : Z;
  crop_w : Z;
  crop_h : Z
}.

Definition render_crop (r : CropRectangle) : string :=
  ("crop=" ++ str_int (crop_w r) ++ ":" ++ str_int (crop_h r) ++ ":"
   ++ str_int (crop_x r) ++ ":" ++ str_int (crop_y r))%string.

(** ** Sample inputs *)

(** An all-zero image of the given shape. *)
Definition black_image (rows cols : nat) : GrayImage :=
  mkGray rows cols (fun _ _ => 0).

(** A frame of two rows whose twelve leftmost columns are black. *)
Definition pillarbox_frame : ndarray :=
  Array2D (mkGray 2 20 (fun _ col => if (col <? 12)%nat then 0 else 200)).

(** A frame of two rows with no black column or row. *)
Definition bright_frame : ndarray :=
  Array2D (mkGray 2 20 (fun _ _ => 200)).

(** A three-frame clip whose bars vanish at frame 2, a clip that never
    changes, and a source that does not open. *)
Definition changing_capture : Capture :=
  mkCapture true 30 3 [pillarbox_frame; pillarbox_frame; bright_frame].

Definition still_capture : Capture :=
  mkCapture true 30 3 [pillarbox_frame; pillarbox_frame; pillarbox_frame].

Definition closed_capture : Capture := mkCapture false 0 0 [].

(** A cut at frame 15 of a 30 fps video, where the bars vanish. *)
Definition cut_at_15 : CutEvent :=
  mkCutEvent 0.5 15 (mkBarState 12 0 0 0) (mkBarState 0 0 0 0).

(** A later cut, at frame 45, where bars appear at top and bottom. *)
Definition cut_at_45 : CutEvent :=
  mkCutEvent 1.5 45 (mkBarState 0 0 0 0) (mkBarState 0 0 20 20).

(** The 300-frame scenario of the specification: bars of width 10 on the
    left and right for frames 0 to 99, no bars from frame 100 on. *)
Definition side_bars_frame : ndarray :=
  Array2D (mkGray 2 40
             (fun _ col => if (col <? 10)%nat || (30 <=? col)%nat
                           then 0 else 200)).

Definition scenario_capture : Capture :=
  mkCapture true 30 300
            (repeat side_bars_frame 100 ++ repeat bright_frame 200).

(** The fixed-point BT.601 luma of a BGR pixel. *)
Definition luma_image (c : ColourImage) : GrayImage :=
  mkGray (c_rows c) (c_cols c)
         (fun r k => (c_pixel c r k 0%nat * 1868 + c_pixel c r k 1%nat * 9617
                      + c_pixel c r k 2%nat * 4899 + 8192) / 16384).

(** An OpenCV in which every path opens the capture [cap]. *)
Definition example_cv2 (cap : Capture) : cv2 :=
  {| cvtColor_BGR2GRAY := luma_image;
     cvtColor_rows := fun _ => eq_refl;
     cvtColor_cols := fun _ => eq_refl;
     VideoCapture := fun _ => cap |}.

(** ** utils.py: the OpenCV fallback of the splitter *)

(** [cap.set(cv2.CAP_PROP_POS_FRAMES, n)] gives the index of the frame that
    the next [read()] returns.  The function is OpenCV's; the development
    uses only that a non-negative index is sought exactly. *)
Class cv2_seek : Type := {
  set_pos_frames : Capture -> Z -> nat;
  set_pos_frames_exact :
    forall cap n, 0 <= n -> set_pos_frames cap n = Z.to_nat n
}.

(** [cap.read()] at read position [pos]: the frame there and the next
    position, or [ret = False] past the last frame. *)
Definition cap_read (cap : Capture) (pos : nat) : option ndarray * nat :=
  match nth_error (cap_frames cap) pos with
  | Some frame => (Some frame, S pos)
  | None => (None, pos)
  end.

(** [for _ in range(start_frame, end_frame): ret, frame = cap.read(); if not
    ret: break; out.write(frame)], with the iterations still to run, the
    read position and the frames written so far. *)
Fixpoint write_loop (cap : Capture) (iterations : nat) (pos : nat)
    (written : list ndarray) : list ndarray :=
  match iterations with
  | O => written
  | S iterations' =>
      match cap_read cap pos with
      | (Some frame, pos') =>
          write_loop cap iterations' pos' (written ++ [frame])
      | (None, _) => written
      end
  end.

(** [_split_with_opencv]: the frames written to the output file.  The codec,
    frame rate and size only configure the writer. *)
Definition _split_with_opencv `{SK : cv2_seek} (cap : Capture)
    (start_frame end_frame : Z) : list ndarray :=
  let pos := set_pos_frames cap start_frame in
  write_loop cap (Z.to_nat (end_frame - start_frame)) pos [].

(** [split_video_by_cuts] when ffmpeg is not available: the frames written
    to each segment file, in the order of the segments.  Creating the
    directory, naming the files and the progress display are left out. *)
Definition split_video_by_cuts_opencv `{CV : cv2} `{SK : cv2_seek}
    (video_path : string) (cuts : list CutEvent)
  : Result (list (list ndarray)) :=
  let cap := VideoCapture video_path in
  if negb (isOpened cap) then
    Err (ValueError ("Could not open video file: " ++ video_path))
  else
    let total_frames := CAP_PROP_FRAME_COUNT cap in
    let segments := split_video_by_cuts_segments cuts total_frames in
    Ok (map (fun seg =>
               _split_with_opencv cap (start_frame seg) (end_frame seg))
            segments).

(** ** analyzer.py: analysing and splitting in one call *)

(** [analyze_and_split_video], with the fallback splitter: the cuts and the
    frames written to each segment file. *)
Definition analyze_and_split_video_opencv `{CV : cv2} `{SK : cv2_seek}
    (video_path : string) (detector : BlackBarDetector) (sample_rate : Z)
  : Result (list CutEvent * list (list ndarray)) :=
  cuts <- analyze_video video_path detector sample_rate ;;
  split_files <- split_video_by_cuts_opencv video_path cuts ;;
  Ok (cuts, split_files).

(** The segments that the splitter called by [analyze_and_split_video]
    plans: the cuts of the analysis, and the frame count that the capture
    reports. *)
Definition analyze_and_split_video_segments `{CV : cv2}
    (video_path : string) (detector : BlackBarDetector) (sample_rate : Z)
  : Result (list Segment) :=
  cuts <- analyze_video video_path detector sample_rate ;;
  Ok (split_video_by_cuts_segments
        cuts (CAP_PROP_FRAME_COUNT (VideoCapture video_path))).

(** ** Further vocabulary *)

(** A column (row) is bright when its mean luminance is above the
    threshold. *)
Definition col_bright (d : BlackBarDetector) (gray : GrayImage) (col : nat)
  : bool :=
  mean_gt (np_mean (column gray col)) (black_threshold d).

Definition row_bright (d : BlackBarDetector) (gray : GrayImage) (row : nat)
  : bool :=
  mean_gt (np_mean (row_of gray row)) (black_threshold d).

(** Length of the longest run of black columns from the last column
    leftward, and of black rows from the top and from the bottom. *)
Definition black_suffix_len (d : BlackBarDetector) (gray : GrayImage) : nat :=
  List.length (take_while (col_black d gray) (range_down (g_cols gray))).

Definition black_rows_top (d : BlackBarDetector) (gray : GrayImage) : nat :=
  List.length (take_while (row_black d gray) (range (g_rows gray))).

Definition black_rows_bottom (d : BlackBarDetector) (gray : GrayImage) : nat :=
  List.length (take_while (row_black d gray) (range_down (g_rows gray))).

(** The detector as a fold over the visited frames: the cut list so far and
    the previous state are carried along. *)
Fixpoint fold_visited (d : BlackBarDetector) (fps : float)
    (v : list (Z * BarState)) (cuts : list CutEvent) (prev : option BarState)
  : Result (list CutEvent) :=
  match v with
  | [] => Ok cuts
  | (n, cur) :: v' =>
      cuts' <- match prev with
               | Some p =>
                   if states_significantly_different d p cur
                   then
                     timestamp <- truediv n fps ;;
                     Ok (cuts ++ [mkCutEvent timestamp n p cur])
                   else Ok cuts
               | None => Ok cuts
               end ;;
      fold_visited d fps v' cuts' (Some cur)
  end.

(** Reading a decimal numeral back. *)
Definition decode_int (s : string) : option Z :=
  option_map Z.of_int (NilZero.int_of_string s).

(** A frame of forty rows with black bars of 12 rows at the top and 15 rows
    at the bottom. *)
Definition letterbox_frame : ndarray :=
  Array2D (mkGray 40 4
             (fun row _ => if (row <? 12)%nat || (25 <=? row)%nat
                           then 0 else 200)).

(** The changing clip with a reported frame rate of 0, its first two
    frames as a clip of their own, and an OpenCV that opens the short clip
    under the name "short.mp4" and the changing clip otherwise. *)
Definition zero_fps_capture : Capture :=
  mkCapture true 0 3 [pillarbox_frame; pillarbox_frame; bright_frame].

Definition short_capture : Capture :=
  mkCapture true 30 2 [pillarbox_frame; pillarbox_frame].

Definition two_clips_cv2 : cv2 :=
  {| cvtColor_BGR2GRAY := luma_image;
     cvtColor_rows := fun _ => eq_refl;
     cvtColor_cols := fun _ => eq_refl;
     VideoCapture := fun path =>
       if (path =? "short.mp4")%string then short_capture
       else changing_capture |}.

(** The name of the segment at position [k] of the plan. *)
Definition ordinal_name (k : nat) : string :=
  ("segment_" ++ fmt_02d (Z.of_nat k + 1))%string.

(** Exact seeking, for examples. *)
Definition example_seek : cv2_seek :=
  {| set_pos_frames := fun _ n => Z.to_nat n;
     set_pos_frames_exact := fun _ _ _ => eq_refl |}.

(** * Properties *)

(** ** The scanning loop *)

Section Scan.
Variables (threshold : Z) (line : nat -> list Z) (size_at : nat -> Z).

Lemma scan_cons (i : nat) (idxs : list nat) (size : Z) :
  scan threshold line size_at (i :: idxs) size
  = if dark threshold line i
    then scan threshold line size_at idxs (size_at i) else size.
Proof.
  unfold dark. cbn [scan]. now destruct (mean_gt _ _).
Qed.

(** The loop returns its initial value or the size set at some index. *)
Lemma scan_result (idxs : list nat) (size : Z) :
  scan threshold line size_at idxs size = size
  \/ exists i, In i idxs /\ scan threshold line size_at idxs size = size_at i.
Proof.
  revert size. induction idxs as [|i idxs IH]; intros size.
  - now left.
  - rewrite scan_cons. destruct (dark threshold line i).
    + destruct (IH (size_at i)) as [E | (j & Hj & E)].
      * right. exists i. split; [now left | exact E].
      * right. exists j. split; [now right | exact E].
    + now left.
Qed.

(** With no bright line at all, the last index decides. *)
Lemma scan_all_dark_snoc (idxs : list nat) (i : nat) (size : Z) :
  (forall j, In j (idxs ++ [i]) -> dark threshold line j = true) ->
  scan threshold line size_at (idxs ++ [i]) size = size_at i.
Proof.
  revert size. induction idxs as [|k idxs IH]; intros size H.
  - cbn [app]. rewrite scan_cons, (H i) by now left. reflexivity.
  - cbn [app]. rewrite scan_cons, (H k) by now left.
    apply IH. intros j Hj. apply H. now right.
Qed.

End Scan.

(** Scanning upward from [a] counts the dark prefix. *)
Lemma scan_up_prefix (threshold : Z) (line : nat -> list Z) (n a : nat) :
  scan threshold line (fun i => Z.of_nat i + 1) (seq a n) (Z.of_nat a)
  = Z.of_nat a
    + Z.of_nat (List.length (take_while (dark threshold line) (seq a n))).
Proof.
  revert a. induction n as [|n IH]; intros a.
  - cbn. lia.
  - cbn [seq take_while]. rewrite scan_cons.
    destruct (dark threshold line a).
    + replace (Z.of_nat a + 1) with (Z.of_nat (S a)) by lia.
      rewrite IH. cbn [List.length]. lia.
    + cbn. lia.
Qed.

Lemma take_while_ext {A : Type} (p q : A -> bool) (l : list A) :
  (forall x, In x l -> p x = q x) -> take_while p l = take_while q l.
Proof.
  induction l as [|x l IH]; intros H; [reflexivity|].
  cbn [take_while]. rewrite (H x) by now left.
  destruct (q x); [|reflexivity]. f_equal. apply IH.
  intros y Hy. apply H. now right.
Qed.

(** A prefix of [k] good elements followed by a bad one has length [k]. *)
Lemma take_while_seq_stop (p : nat -> bool) (k n a : nat) :
  (k < n)%nat ->
  (forall j, (a <= j < a + k)%nat -> p j = true) ->
  p (a + k)%nat = false ->
  List.length (take_while p (seq a n)) = k.
Proof.
  revert n a. induction k as [|k IH]; intros n a Hk Hgood Hbad.
  - destruct n as [|n]; [lia|]. cbn [seq take_while].
    rewrite Nat.add_0_r in Hbad. now rewrite Hbad.
  - destruct n as [|n]; [lia|]. cbn [seq take_while].
    rewrite (Hgood a) by lia. cbn [List.length]. f_equal.
    apply IH; [lia | intros j Hj; apply Hgood; lia |].
    now replace (S a + k)%nat with (a + S k)%nat by lia.
Qed.

(** On a non-empty line the mean is a number, so "not above" is "at most". *)
Lemma not_gt_is_le (xs : list Z) (t : Z) :
  xs <> [] -> negb (mean_gt (np_mean xs) t) = mean_le (np_mean xs) t.
Proof.
  destruct xs as [|x xs]; [congruence|]. intros _. cbn.
  apply negb_involutive.
Qed.

Lemma column_nonempty (gray : GrayImage) (col : nat) :
  (0 < g_rows gray)%nat -> column gray col <> [].
Proof.
  unfold column. destruct (g_rows gray) as [|r]; [lia|]. now cbn.
Qed.

Lemma mean_le_not_gt (m : option Q) (t : Z) :
  mean_le m t = true -> mean_gt m t = false.
Proof.
  destruct m as [q|]; cbn; [|congruence]. now intros ->.
Qed.

(** ** detector.py: measuring one frame *)

Lemma min_size_filter_cases (d : BlackBarDetector) (x : Z) :
  (min_bar_size d <= x /\ min_size_filter d x = x)
  \/ (x < min_bar_size d /\ min_size_filter d x = 0).
Proof.
  unfold min_size_filter. rewrite Z.geb_leb.
  destruct (Z.leb_spec (min_bar_size d) x); [left | right]; now split.
Qed.

Lemma min_size_filter_zero_or_bar (d : BlackBarDetector) (D x : Z) :
  0 <= x <= D -> zero_or_bar d D (min_size_filter d x).
Proof.
  intros Hx. unfold zero_or_bar.
  destruct (min_size_filter_cases d x) as [[H ->] | [H ->]]; [right | left]; lia.
Qed.

Lemma min_size_filter_nonneg (d : BlackBarDetector) (x : Z) :
  0 <= x -> 0 <= min_size_filter d x.
Proof.
  intros Hx.
  destruct (min_size_filter_cases d x) as [[_ ->] | [_ ->]]; lia.
Qed.

Lemma scan_up_bounds (threshold : Z) (line : nat -> list Z) (n : nat) :
  0 <= scan threshold line (fun i => Z.of_nat i + 1) (range n) 0 <= Z.of_nat n.
Proof.
  destruct (scan_result threshold line (fun i => Z.of_nat i + 1) (range n) 0)
    as [-> | (i & Hi & ->)]; [lia|].
  apply in_seq in Hi. lia.
Qed.

Lemma scan_down_bounds (threshold : Z) (line : nat -> list Z) (n : nat) :
  0 <= scan threshold line (fun i => Z.of_nat n - Z.of_nat i) (range_down n) 0
    <= Z.of_nat n.
Proof.
  destruct (scan_result threshold line (fun i => Z.of_nat n - Z.of_nat i)
                        (range_down n) 0)
    as [-> | (i & Hi & ->)]; [lia|].
  apply in_rev, in_seq in Hi. lia.
Qed.

Lemma scan_up_all_dark (threshold : Z) (line : nat -> list Z) (n : nat) :
  (forall i, (i < n)%nat -> mean_gt (np_mean (line i)) threshold = false) ->
  scan threshold line (fun i => Z.of_nat i + 1) (range n) 0 = Z.of_nat n.
Proof.
  intros H. destruct n as [|n]; [reflexivity|].
  unfold range. rewrite seq_S. cbn [Nat.add].
  rewrite scan_all_dark_snoc; [lia|].
  intros j Hj. rewrite <- seq_S in Hj. apply in_seq in Hj.
  unfold dark. rewrite H by lia. reflexivity.
Qed.

Lemma scan_down_all_dark (threshold : Z) (line : nat -> list Z) (n : nat) :
  (forall i, (i < n)%nat -> mean_gt (np_mean (line i)) threshold = false) ->
  scan threshold line (fun i => Z.of_nat n - Z.of_nat i) (range_down n) 0
  = Z.of_nat n.
Proof.
  intros H. destruct n as [|n]; [reflexivity|].
  unfold range_down. cbn [seq rev].
  rewrite scan_all_dark_snoc; [lia|].
  intros j Hj. change (In j (rev (seq 0 (S n)))) in Hj.
  apply in_rev, in_seq in Hj. unfold dark. rewrite H by lia. reflexivity.
Qed.

Section Measuring.
Context `{CV : cv2}.

(** The grayscale image has the frame's rows and columns. *)
Lemma to_gray_rows (frame : ndarray) :
  g_rows (to_gray frame) = frame_height frame.
Proof. destruct frame as [g | c]; [reflexivity | apply cvtColor_rows]. Qed.

Lemma to_gray_cols (frame : ndarray) :
  g_cols (to_gray frame) = frame_width frame.
Proof. destruct frame as [g | c]; [reflexivity | apply cvtColor_cols]. Qed.

Lemma left_width_eq (d : BlackBarDetector) (frame : ndarray) :
  fst (detect_vertical_bars d frame)
  = min_size_filter d
      (scan (black_threshold d) (column (to_gray frame))
            (fun col => Z.of_nat col + 1) (range (g_cols (to_gray frame))) 0).
Proof. reflexivity. Qed.

(** On a frame with at least one row, the raw left scan is the length of the
    longest black prefix of columns. *)
Lemma left_scan_black_prefix (d : BlackBarDetector) (frame : ndarray) :
  (0 < g_rows (to_gray frame))%nat ->
  scan (black_threshold d) (column (to_gray frame))
       (fun col => Z.of_nat col + 1) (range (g_cols (to_gray frame))) 0
  = Z.of_nat (black_prefix_len d (to_gray frame)).
Proof.
  intros Hrows. unfold range.
  rewrite (scan_up_prefix (black_threshold d) (column (to_gray frame)) _ 0).
  unfold black_prefix_len, range. cbn [Z.of_nat Z.add]. do 2 f_equal.
  apply take_while_ext. intros col _. unfold dark, col_black.
  apply not_gt_is_le, column_nonempty, Hrows.
Qed.

(** C5 (as amended): on every frame with at least one row, the measured left
    bar width is the length of the longest prefix of columns, from column 0
    rightward, whose mean luminance is at most [black_threshold], replaced by
    0 when that length is strictly below [min_bar_size]; in particular, when
    the leftmost [k < min_bar_size] columns are black and column [k] is not,
    the measured left width is 0. *)
Theorem left_width_is_filtered_black_prefix
    (d : BlackBarDetector) (frame : ndarray) :
  (0 < frame_height frame)%nat ->
  let gray := to_gray frame in
  let len := Z.of_nat (black_prefix_len d gray) in
  fst (detect_vertical_bars d frame) = (if len <? min_bar_size d then 0 else len)
  /\ forall k : nat,
       Z.of_nat k < min_bar_size d -> (k < frame_width frame)%nat ->
       (forall j, (j < k)%nat -> col_black d gray j = true) ->
       col_black d gray k = false ->
       fst (detect_vertical_bars d frame) = 0.
Proof.
  rewrite <- to_gray_rows, <- to_gray_cols.
  intros Hrows gray len.
  assert (E : fst (detect_vertical_bars d frame)
              = if len <? min_bar_size d then 0 else len).
  { rewrite left_width_eq, (left_scan_black_prefix d frame Hrows).
    fold gray. fold len. unfold min_size_filter. rewrite Z.geb_leb.
    destruct (Z.leb_spec (min_bar_size d) len), (Z.ltb_spec len (min_bar_size d));
      lia. }
  split; [exact E|].
  intros k Hk Hcols Hblack Hbright. rewrite E.
  assert (L : black_prefix_len d gray = k).
  { unfold black_prefix_len, range.
    apply take_while_seq_stop; [exact Hcols | | exact Hbright].
    intros j Hj. apply Hblack. lia. }
  unfold len. rewrite L.
  destruct (Z.ltb_spec (Z.of_nat k) (min_bar_size d)); lia.
Qed.

(** C6 (as amended): on a fully black frame each measured bar size is the
    full corresponding dimension when that dimension is at least
    [min_bar_size], and 0 otherwise; so all four sizes are the full
    dimensions exactly when the frame is at least [min_bar_size] wide and
    high, and no correction for overlapping bars is made. *)
Theorem fully_black_frame_state (d : BlackBarDetector) (frame : ndarray) :
  let gray := to_gray frame in
  let W := Z.of_nat (frame_width frame) in
  let H := Z.of_nat (frame_height frame) in
  fully_black d gray ->
  get_frame_bar_state d frame
  = mkBarState (min_size_filter d W) (min_size_filter d W)
               (min_size_filter d H) (min_size_filter d H)
  /\ (min_bar_size d <= W -> min_bar_size d <= H ->
      get_frame_bar_state d frame = mkBarState W W H H).
Proof.
  rewrite <- to_gray_rows, <- to_gray_cols.
  intros gray W H [Hcols Hrows].
  assert (E : get_frame_bar_state d frame
              = mkBarState (min_size_filter d W) (min_size_filter d W)
                           (min_size_filter d H) (min_size_filter d H)).
  { unfold get_frame_bar_state, detect_vertical_bars, detect_horizontal_bars.
    fold gray.
    rewrite scan_up_all_dark, scan_down_all_dark, scan_up_all_dark,
      scan_down_all_dark;
      try (intros i Hi; apply mean_le_not_gt);
      try (apply Hcols; exact Hi); try (apply Hrows; exact Hi).
    reflexivity. }
  split; [exact E|].
  intros HW HH. rewrite E. unfold min_size_filter.
  rewrite !Z.geb_leb.
  destruct (Z.leb_spec (min_bar_size d) W), (Z.leb_spec (min_bar_size d) H);
    try lia; reflexivity.
Qed.

(** C9: each field of a measured bar state is 0 or lies between
    [min_bar_size] and the frame's dimension (the width for left and right,
    the height for top and bottom); hence no field is negative and none lies
    strictly between 0 and [min_bar_size]. *)
Theorem measured_state_fields (d : BlackBarDetector) (frame : ndarray) :
  let s := get_frame_bar_state d frame in
  let W := Z.of_nat (frame_width frame) in
  let H := Z.of_nat (frame_height frame) in
  (zero_or_bar d W (left_width s) /\ zero_or_bar d W (right_width s)
   /\ zero_or_bar d H (top_height s) /\ zero_or_bar d H (bottom_height s))
  /\ nonneg_state s
  /\ ~ (0 < left_width s < min_bar_size d)
  /\ ~ (0 < right_width s < min_bar_size d)
  /\ ~ (0 < top_height s < min_bar_size d)
  /\ ~ (0 < bottom_height s < min_bar_size d).
Proof.
  rewrite <- to_gray_rows, <- to_gray_cols.
  intros s W H.
  assert (Z4 : zero_or_bar d W (left_width s) /\ zero_or_bar d W (right_width s)
               /\ zero_or_bar d H (top_height s)
               /\ zero_or_bar d H (bottom_height s)).
  { subst s W H.
    unfold get_frame_bar_state, detect_vertical_bars, detect_horizontal_bars.
    cbn [left_width right_width top_height bottom_height].
    repeat split; apply min_size_filter_zero_or_bar;
      first [apply scan_up_bounds | apply scan_down_bounds]. }
  assert (N : nonneg_state s).
  { subst s.
    unfold get_frame_bar_state, detect_vertical_bars, detect_horizontal_bars.
    unfold nonneg_state.
    cbn [left_width right_width top_height bottom_height].
    repeat split; apply min_size_filter_nonneg;
      first [apply scan_up_bounds | apply scan_down_bounds]. }
  split; [exact Z4|]. split; [exact N|].
  destruct Z4 as (Hl & Hr & Ht & Hb).
  unfold zero_or_bar in *. lia.
Qed.

End Measuring.

(** C5 fails on a frame without rows: the mean of an empty column is NaN,
    which is neither above nor at most the threshold, so the scan runs over
    all ten columns although no column is black. *)
Lemma left_width_empty_columns :
  let CV := example_cv2 (mkCapture true 30 0 []) in
  let d := default_detector in
  let frame := Array2D (black_image 0 10) in
  let len := Z.of_nat (black_prefix_len d (to_gray frame)) in
  fst (detect_vertical_bars d frame) = 10
  /\ len = 0
  /\ col_black d (to_gray frame) 0 = false
  /\ fst (detect_vertical_bars d frame)
     <> (if len <? min_bar_size d then 0 else len).
Proof. vm_compute. repeat split. discriminate. Qed.

(** On the pillarboxed sample frame the measured left width is 12. *)
Lemma left_width_is_filtered_black_prefix_witness :
  let CV := example_cv2 (mkCapture true 30 0 []) in
  (0 < frame_height pillarbox_frame)%nat
  /\ fst (detect_vertical_bars default_detector pillarbox_frame) = 12.
Proof.
  cbv zeta. split; [cbn; lia|].
  rewrite (proj1 (@left_width_is_filtered_black_prefix
                    (example_cv2 (mkCapture true 30 0 []))
                    default_detector pillarbox_frame
                    (Nat.lt_0_succ 1))).
  reflexivity.
Defined.

(** C6 fails on a small frame: a fully black 4x4 frame measured with the
    default [min_bar_size = 10] has all four sizes filtered to 0. *)
Lemma fully_black_small_frame :
  let CV := example_cv2 (mkCapture true 30 0 []) in
  let frame := Array2D (black_image 4 4) in
  fully_black default_detector (to_gray frame)
  /\ get_frame_bar_state default_detector frame = mkBarState 0 0 0 0
  /\ get_frame_bar_state default_detector frame <> mkBarState 4 4 4 4.
Proof.
  cbv zeta. split; [|split].
  - split; intros i Hi; reflexivity.
  - reflexivity.
  - vm_compute. discriminate.
Qed.

(** A fully black 12x16 frame measures its full dimensions. *)
Lemma fully_black_frame_state_witness :
  let CV := example_cv2 (mkCapture true 30 0 []) in
  let frame := Array2D (black_image 12 16) in
  fully_black default_detector (to_gray frame)
  /\ get_frame_bar_state default_detector frame = mkBarState 16 16 12 12.
Proof.
  cbv zeta.
  assert (B : fully_black default_detector
                (@to_gray (example_cv2 (mkCapture true 30 0 []))
                          (Array2D (black_image 12 16)))).
  { split; intros i Hi; reflexivity. }
  split; [exact B|].
  apply (proj2 (@fully_black_frame_state
                  (example_cv2 (mkCapture true 30 0 []))
                  default_detector (Array2D (black_image 12 16)) B));
    vm_compute; discriminate.
Defined.

(** ** detector.py: comparing two states *)

Lemma gtb_gt (a b : Z) : (a >? b) = true <-> a > b.
Proof. rewrite Z.gtb_ltb, Z.ltb_lt. lia. Qed.

(** The boolean test says that some field differs by more than the
    tolerance, strictly. *)
Lemma significantly_different_iff (d : BlackBarDetector) (s1 s2 : BarState) :
  states_significantly_different d s1 s2 = true
  <-> exceeds_tolerance (tolerance_pixels d) s1 s2.
Proof.
  unfold states_significantly_different, exceeds_tolerance.
  rewrite !orb_true_iff, !gtb_gt. tauto.
Qed.

(** C7: the significance test gives the same answer when its two states are
    swapped, for every pair of states and every tolerance. *)
Theorem significantly_different_sym (d : BlackBarDetector) (s1 s2 : BarState) :
  states_significantly_different d s1 s2
  = states_significantly_different d s2 s1.
Proof.
  unfold states_significantly_different.
  assert (A : forall a b, Z.abs (a - b) = Z.abs (b - a)) by (intros; lia).
  rewrite (A (left_width s1)), (A (right_width s1)), (A (top_height s1)),
    (A (bottom_height s1)).
  reflexivity.
Qed.

Lemma same_state_not_different (d : BlackBarDetector) (s : BarState) :
  0 <= tolerance_pixels d -> states_significantly_different d s s = false.
Proof.
  intros Htol. apply not_true_is_false. intros H.
  apply significantly_different_iff in H. unfold exceeds_tolerance in H. lia.
Qed.

Lemma same_state_different_negative (d : BlackBarDetector) (s : BarState) :
  tolerance_pixels d < 0 -> states_significantly_different d s s = true.
Proof.
  intros Htol. apply significantly_different_iff. left. lia.
Qed.

(** ** analyzer.py: the detector run *)

(** Strictly increasing lists of frame numbers. *)
Lemma increasing_nth (l : list Z) :
  StronglySorted Z.lt l ->
  forall i j a b, (i < j)%nat ->
    nth_error l i = Some a -> nth_error l j = Some b -> a < b.
Proof.
  induction 1 as [|x l Hs IH Hall]; intros i j a b Hij Hi Hj.
  - destruct i; discriminate.
  - destruct j as [|j]; [lia|]. cbn in Hj. destruct i as [|i].
    + cbn in Hi. injection Hi as <-.
      rewrite Forall_forall in Hall. apply Hall.
      eapply nth_error_In, Hj.
    + cbn in Hi. apply (IH i j); [lia | exact Hi | exact Hj].
Qed.

Lemma increasing_nth_inj (l : list Z) (i j : nat) (a : Z) :
  StronglySorted Z.lt l ->
  nth_error l i = Some a -> nth_error l j = Some a -> i = j.
Proof.
  intros Hs Hi Hj.
  destruct (Nat.lt_trichotomy i j) as [H | [H | H]]; [|exact H|].
  - pose proof (increasing_nth l Hs i j a a H Hi Hj). lia.
  - pose proof (increasing_nth l Hs j i a a H Hj Hi). lia.
Qed.

Lemma increasing_filter {A : Type} (key : A -> Z) (f : A -> bool) (l : list A) :
  StronglySorted Z.lt (map key l) ->
  StronglySorted Z.lt (map key (filter f l)).
Proof.
  induction l as [|x l IH]; intros Hs; [constructor|].
  cbn in Hs. inversion Hs as [|? ? Hs' Hall]; subst.
  cbn [filter]. destruct (f x); [|now apply IH].
  cbn [map]. constructor; [now apply IH|].
  rewrite Forall_forall in *. intros k Hk.
  apply in_map_iff in Hk as (y & <- & Hy).
  apply filter_In in Hy as [Hy _]. apply Hall, in_map, Hy.
Qed.

Section Run.
Context `{CV : cv2}.
Variable d : BlackBarDetector.

Lemma numbered_lower (frames : list ndarray) (n : Z) (p : Z * BarState) :
  In p (numbered d n frames) -> n <= fst p.
Proof.
  revert n. induction frames as [|f frames IH]; intros n Hp; [easy|].
  cbn in Hp. destruct Hp as [<- | Hp]; [cbn; lia|].
  specialize (IH _ Hp). lia.
Qed.

Lemma numbered_increasing (frames : list ndarray) (n : Z) :
  StronglySorted Z.lt (map fst (numbered d n frames)).
Proof.
  revert n. induction frames as [|f frames IH]; intros n; [constructor|].
  cbn. constructor; [apply IH|].
  rewrite Forall_forall. intros k Hk.
  apply in_map_iff in Hk as (p & <- & Hp).
  apply numbered_lower in Hp. lia.
Qed.

Lemma numbered_state (frames : list ndarray) (n : Z) (p : Z * BarState) :
  In p (numbered d n frames) ->
  exists frame, In frame frames /\ snd p = get_frame_bar_state d frame.
Proof.
  revert n. induction frames as [|f frames IH]; intros n Hp; [easy|].
  cbn in Hp. destruct Hp as [<- | Hp].
  - exists f. split; [now left | reflexivity].
  - destruct (IH _ Hp) as (g & Hg & E). exists g. split; [now right | exact E].
Qed.

Lemma visited_increasing (sample_rate : Z) (frames : list ndarray) :
  StronglySorted Z.lt (map fst (visited d sample_rate frames)).
Proof. apply increasing_filter, numbered_increasing. Qed.

(** What a run returns, timestamps apart, is what it was given followed by
    the significant changes among the visited frames still to come. *)
Lemma read_loop_changes (sample_rate : Z) (fps : float) (frames : list ndarray) :
  forall cuts prev n out,
    read_loop d sample_rate fps frames cuts prev n = Ok out ->
    map event_core out
    = map event_core cuts
      ++ changes d prev (visited_of sample_rate (numbered d n frames)).
Proof.
  induction frames as [|f frames IH]; intros cuts prev n out Hrun.
  - cbn in Hrun. injection Hrun as <-. cbn. now rewrite app_nil_r.
  - cbn [read_loop] in Hrun. unfold py_mod in Hrun.
    destruct (sample_rate =? 0); [discriminate|]. cbn [bind] in Hrun.
    cbn [numbered visited_of filter fst].
    destruct (n mod sample_rate =? 0).
    + cbn [changes]. destruct prev as [p|].
      * destruct (states_significantly_different d p (get_frame_bar_state d f)).
        -- unfold truediv in Hrun.
           destruct (PrimFloat.eqb fps zero); [discriminate|].
           cbn [bind] in Hrun. apply IH in Hrun. rewrite Hrun.
           rewrite map_app, <- app_assoc. reflexivity.
        -- cbn [bind] in Hrun. now apply IH in Hrun.
      * cbn [bind] in Hrun. now apply IH in Hrun.
    + now apply IH in Hrun.
Qed.

(** A run over an opened source returns a cut list as soon as neither the
    sample rate nor the frame rate is zero. *)
Lemma read_loop_returns (sample_rate : Z) (fps : float) (frames : list ndarray) :
  sample_rate <> 0 -> PrimFloat.eqb fps zero = false ->
  forall cuts prev n,
    exists out, read_loop d sample_rate fps frames cuts prev n = Ok out.
Proof.
  intros Hsr Hfps.
  induction frames as [|f frames IH]; intros cuts prev n.
  - now exists cuts.
  - cbn [read_loop]. unfold py_mod, truediv.
    destruct (Z.eqb_spec sample_rate 0); [contradiction|]. rewrite Hfps.
    cbn [bind]. destruct (n mod sample_rate =? 0); [|apply IH].
    destruct prev as [p|]; [|apply IH].
    destruct (states_significantly_different d p (get_frame_bar_state d f));
      apply IH.
Qed.

(** Where the changes come from: the position of the later frame in the
    visited list, and the frame just before it. *)
Lemma in_changes_iff (v : list (Z * BarState)) :
  forall prev n p c,
    In (n, p, c) (changes d prev v)
    <-> exists j,
          nth_error v j = Some (n, c)
          /\ states_significantly_different d p c = true
          /\ match j with
             | O => prev = Some p
             | S j' => exists m, nth_error v j' = Some (m, p)
             end.
Proof.
  induction v as [|[n0 c0] v IH]; intros prev n p c.
  - cbn. split; [easy|]. intros (j & Hj & _). destruct j; discriminate.
  - assert (T : In (n, p, c) (changes d (Some c0) v)
                <-> exists j, nth_error ((n0, c0) :: v) (S j) = Some (n, c)
                     /\ states_significantly_different d p c = true
                     /\ exists m, nth_error ((n0, c0) :: v) j = Some (m, p)).
    { rewrite IH. split; intros (j & Hj & Hs & Hp); exists j;
        (split; [exact Hj|]); (split; [exact Hs|]).
      - destruct j as [|j]; [|exact Hp].
        injection Hp as <-. now exists n0.
      - destruct j as [|j]; [|exact Hp].
        destruct Hp as (m & Hm). cbn in Hm. congruence. }
    cbn [changes].
    split.
    + intros Hin.
      assert (Hcase : (prev = Some p /\ (n0, c0) = (n, c)
                       /\ states_significantly_different d p c = true)
                      \/ In (n, p, c) (changes d (Some c0) v)).
      { destruct prev as [p0|]; [|now right].
        destruct (states_significantly_different d p0 c0) eqn:Hs; [|now right].
        destruct Hin as [E | Hin]; [|now right].
        left. injection E as <- <- <-. now repeat split. }
      destruct Hcase as [(Hp & E & Hs) | Htail].
      * exists O. cbn. rewrite E. now repeat split.
      * apply T in Htail as (j & Hj & Hs & Hp). exists (S j). now repeat split.
    + intros (j & Hj & Hs & Hp). destruct j as [|j].
      * cbn in Hj. injection Hj as -> ->. subst prev. rewrite Hs. now left.
      * assert (Htail : In (n, p, c) (changes d (Some c0) v)).
        { apply T. exists j. now repeat split. }
        destruct prev as [p0|]; [|exact Htail].
        destruct (states_significantly_different d p0 c0);
          [now right | exact Htail].
Qed.

Lemma changes_numbers (v : list (Z * BarState)) :
  forall prev t, In t (changes d prev v) -> In (fst (fst t)) (map fst v).
Proof.
  induction v as [|[n0 c0] v IH]; intros prev t Ht; [easy|].
  cbn [changes] in Ht. cbn [map fst].
  assert (Hcase : t = (n0, match prev with Some p => p | None => c0 end, c0)
                  \/ In t (changes d (Some c0) v)).
  { destruct prev as [p|]; [|now right].
    destruct (states_significantly_different d p c0); [|now right].
    destruct Ht as [<- | Ht]; [now left | now right]. }
  destruct Hcase as [-> | Ht']; [now left | right; eapply IH, Ht'].
Qed.

Lemma changes_increasing (v : list (Z * BarState)) :
  forall prev,
    StronglySorted Z.lt (map fst v) ->
    StronglySorted Z.lt (map (fun t => fst (fst t)) (changes d prev v)).
Proof.
  induction v as [|[n0 c0] v IH]; intros prev Hs; [constructor|].
  cbn in Hs. inversion Hs as [|? ? Hs' Hall]; subst.
  cbn [changes].
  assert (Hcons : StronglySorted Z.lt
            (map (fun t => fst (fst t))
                 ((n0, c0, c0) :: changes d (Some c0) v))).
  { cbn [map fst]. constructor; [now apply IH|].
    rewrite Forall_forall in *. intros k Hk.
    apply in_map_iff in Hk as (t & <- & Ht).
    apply Hall. eapply changes_numbers, Ht. }
  destruct prev as [p|]; [|now apply IH].
  destruct (states_significantly_different d p c0); [|now apply IH].
  exact Hcons.
Qed.

(** Frames that all measure the same state produce no change. *)
Lemma changes_constant (s0 : BarState) (v : list (Z * BarState)) :
  states_significantly_different d s0 s0 = false ->
  (forall p, In p v -> snd p = s0) ->
  forall prev, prev = None \/ prev = Some s0 -> changes d prev v = [].
Proof.
  intros Hsame. induction v as [|[n0 c0] v IH]; intros Hall prev Hprev;
    [reflexivity|].
  assert (E : c0 = s0) by (apply (Hall (n0, c0)); now left). subst c0.
  cbn [changes].
  assert (Htail : changes d (Some s0) v = []).
  { apply IH; [|now right]. intros p Hp. apply Hall. now right. }
  destruct Hprev as [-> | ->]; [exact Htail|]. now rewrite Hsame.
Qed.

(** On frames that all measure the same state the loop never appends. *)
Lemma read_loop_constant (s0 : BarState) (sample_rate : Z) (fps : float)
    (frames : list ndarray) :
  sample_rate <> 0 ->
  states_significantly_different d s0 s0 = false ->
  (forall f, In f frames -> get_frame_bar_state d f = s0) ->
  forall cuts prev n,
    prev = None \/ prev = Some s0 ->
    read_loop d sample_rate fps frames cuts prev n = Ok cuts.
Proof.
  intros Hsr Hsame. induction frames as [|f frames IH];
    intros Hall cuts prev n Hprev; [reflexivity|].
  assert (Hrest : forall g, In g frames -> get_frame_bar_state d g = s0)
    by (intros g Hg; apply Hall; now right).
  cbn [read_loop]. unfold py_mod.
  destruct (Z.eqb_spec sample_rate 0); [contradiction|]. cbn [bind].
  rewrite (Hall f) by now left.
  destruct (n mod sample_rate =? 0); [|now apply IH].
  destruct Hprev as [-> | ->]; cbn [bind].
  - apply IH; [exact Hrest | now right].
  - rewrite Hsame. cbn [bind]. apply IH; [exact Hrest | now right].
Qed.

End Run.

Section Analysis.
Context `{CV : cv2}.

Lemma analyze_video_opened (path : string) (d : BlackBarDetector)
    (sample_rate : Z) (cuts : list CutEvent) :
  analyze_video path d sample_rate = Ok cuts ->
  isOpened (VideoCapture path) = true
  /\ map event_core cuts
     = changes d None (visited d sample_rate (cap_frames (VideoCapture path))).
Proof.
  unfold analyze_video. destruct (isOpened (VideoCapture path)); cbn [negb].
  - intros Hrun. split; [reflexivity|].
    apply read_loop_changes in Hrun. exact Hrun.
  - discriminate.
Qed.

(** C2: a run of the detector that is given a non-zero sample rate and a
    non-zero frame rate returns a cut list; and in every run that returns,
    a cut event exists for a visited frame exactly when that frame has a
    visited predecessor and at least one of the four fields differs from the
    predecessor's by strictly more than [tolerance_pixels]; each event
    records the two states compared; the first visited frame yields no cut;
    and the events' frame numbers are strictly increasing. *)
Theorem analyze_video_cuts (path : string) (d : BlackBarDetector)
    (sample_rate : Z) :
  let cap := VideoCapture path in
  let v := visited d sample_rate (cap_frames cap) in
  (isOpened cap = true -> sample_rate <> 0 ->
   PrimFloat.eqb (CAP_PROP_FPS cap) zero = false ->
   exists cuts, analyze_video path d sample_rate = Ok cuts)
  /\ forall cuts, analyze_video path d sample_rate = Ok cuts ->
     (forall j n cur, nth_error v j = Some (n, cur) ->
        ((exists c, In c cuts /\ frame_number c = n)
         <-> (exists j' m prev,
                j = S j' /\ nth_error v j' = Some (m, prev)
                /\ exceeds_tolerance (tolerance_pixels d) prev cur)))
     /\ (forall c, In c cuts ->
           exists j m,
             nth_error v (S j) = Some (frame_number c, after_state c)
             /\ nth_error v j = Some (m, before_state c))
     /\ (forall n cur, nth_error v 0 = Some (n, cur) ->
           forall c, In c cuts -> frame_number c <> n)
     /\ StronglySorted Z.lt (map frame_number cuts).
Proof.
  intros cap v. split.
  - intros Hopen Hsr Hfps. unfold analyze_video. fold cap. rewrite Hopen.
    cbn [negb]. apply read_loop_returns; assumption.
  - intros cuts Hrun.
    apply analyze_video_opened in Hrun as [_ Hcuts]. fold cap v in Hcuts.
    assert (Hinc : StronglySorted Z.lt (map fst v))
      by apply visited_increasing.
    assert (Hfrom : forall c, In c cuts ->
              exists j m,
                nth_error v (S j) = Some (frame_number c, after_state c)
                /\ nth_error v j = Some (m, before_state c)
                /\ states_significantly_different d (before_state c)
                     (after_state c) = true).
    { intros c Hc. apply (in_map event_core) in Hc. rewrite Hcuts in Hc.
      apply in_changes_iff in Hc as (j & Hj & Hs & Hp).
      destruct j as [|j]; [discriminate|]. destruct Hp as (m & Hm).
      exists j, m. now repeat split. }
    assert (Hiff : forall j n cur, nth_error v j = Some (n, cur) ->
              ((exists c, In c cuts /\ frame_number c = n)
               <-> (exists j' m prev,
                      j = S j' /\ nth_error v j' = Some (m, prev)
                      /\ exceeds_tolerance (tolerance_pixels d) prev cur))).
    { intros j n cur Hj. split.
      - intros (c & Hc & <-).
        destruct (Hfrom c Hc) as (j0 & m & Hafter & Hbefore & Hs).
        assert (E : j = S j0).
        { apply (increasing_nth_inj (map fst v) j (S j0) (frame_number c) Hinc);
            rewrite nth_error_map; [rewrite Hj | rewrite Hafter]; reflexivity. }
        subst j. rewrite Hafter in Hj. injection Hj as <-.
        exists j0, m, (before_state c). repeat split; [exact Hbefore|].
        now apply significantly_different_iff.
      - intros (j' & m & prev & -> & Hm & Hex).
        apply significantly_different_iff in Hex.
        assert (Hin : In (n, prev, cur) (map event_core cuts)).
        { rewrite Hcuts. apply in_changes_iff. exists (S j').
          repeat split; [exact Hj | exact Hex | now exists m]. }
        apply in_map_iff in Hin as (c & E & Hc).
        exists c. split; [exact Hc|]. unfold event_core in E. congruence. }
    split; [exact Hiff|]. split; [|split].
    + intros c Hc. destruct (Hfrom c Hc) as (j & m & Ha & Hb & _).
      now exists j, m.
    + intros n cur H0 c Hc E.
      assert (Hex : exists c, In c cuts /\ frame_number c = n) by now exists c.
      apply (Hiff O n cur H0) in Hex as (j' & _ & _ & Hj' & _). discriminate.
    + replace (map frame_number cuts)
        with (map (fun t => fst (fst t)) (map event_core cuts))
        by (rewrite map_map; reflexivity).
      rewrite Hcuts. apply changes_increasing, Hinc.
Qed.

(** C8: when the frame source cannot be opened, [analyze_video] fails with
    the error that names the file path, and returns no cut list at all. *)
Theorem analyze_video_source_unavailable (path : string)
    (d : BlackBarDetector) (sample_rate : Z) :
  isOpened (VideoCapture path) = false ->
  analyze_video path d sample_rate
  = Err (ValueError ("Could not open video file: " ++ path))
  /\ forall cuts, analyze_video path d sample_rate <> Ok cuts.
Proof.
  intros Hclosed.
  assert (E : analyze_video path d sample_rate
              = Err (ValueError ("Could not open video file: " ++ path))).
  { unfold analyze_video. now rewrite Hclosed. }
  split; [exact E|]. intros cuts. rewrite E. discriminate.
Qed.

(** C10: with a non-negative tolerance no state is significantly different
    from itself, so a run over frames that all measure the same state emits
    no cut event (and returns the empty list whenever the source opens and
    the sample rate is not zero); with a negative tolerance every state is
    significantly different from itself. *)
Theorem same_state_no_cut (d : BlackBarDetector) :
  (0 <= tolerance_pixels d ->
   (forall s, states_significantly_different d s s = false)
   /\ forall path sample_rate,
        (forall f1 f2,
           In f1 (cap_frames (VideoCapture path)) ->
           In f2 (cap_frames (VideoCapture path)) ->
           get_frame_bar_state d f1 = get_frame_bar_state d f2) ->
        (forall cuts, analyze_video path d sample_rate = Ok cuts -> cuts = [])
        /\ (isOpened (VideoCapture path) = true -> sample_rate <> 0 ->
            analyze_video path d sample_rate = Ok []))
  /\ (tolerance_pixels d < 0 ->
      forall s, states_significantly_different d s s = true).
Proof.
  split; [|intros Htol s; now apply same_state_different_negative].
  intros Htol. split; [intros s; now apply same_state_not_different|].
  intros path sample_rate Hsame.
  assert (Hempty : forall cuts,
            analyze_video path d sample_rate = Ok cuts -> cuts = []).
  { intros cuts Hrun. apply analyze_video_opened in Hrun as [_ Hcuts].
    destruct (cap_frames (VideoCapture path)) as [|f0 frames] eqn:Hframes.
    - cbn in Hcuts. now destruct cuts.
    - rewrite (changes_constant d (get_frame_bar_state d f0)) in Hcuts.
      + now destruct cuts.
      + now apply same_state_not_different.
      + intros p Hp. apply filter_In in Hp as [Hp _].
        apply numbered_state in Hp as (f & Hf & ->).
        apply Hsame; [exact Hf | now left].
      + now left. }
  split; [exact Hempty|].
  intros Hopen Hsr. unfold analyze_video. rewrite Hopen. cbn [negb].
  destruct (cap_frames (VideoCapture path)) as [|f0 frames] eqn:Hframes;
    [reflexivity|].
  apply (read_loop_constant d (get_frame_bar_state d f0));
    [exact Hsr | now apply same_state_not_different | | now left].
  intros f Hf. apply Hsame; [exact Hf | now left].
Qed.

End Analysis.

(** The changing clip has exactly one cut, at frame 2, from the pillarboxed
    state to no bars. *)
Example changing_capture_cuts :
  let CV := example_cv2 changing_capture in
  match analyze_video "clip.mp4" default_detector 1 with
  | Ok cuts => map event_core cuts
  | Err _ => []
  end = [(2, mkBarState 12 0 0 0, mkBarState 0 0 0 0)].
Proof. vm_compute. reflexivity. Qed.

(** The run over the changing clip returns, with increasing frame numbers. *)
Lemma analyze_video_cuts_witness :
  let CV := example_cv2 changing_capture in
  exists cuts,
    analyze_video "clip.mp4" default_detector 1 = Ok cuts
    /\ StronglySorted Z.lt (map frame_number cuts).
Proof.
  cbv zeta.
  pose (T := @analyze_video_cuts (example_cv2 changing_capture)
                                 "clip.mp4" default_detector 1).
  destruct (proj1 T eq_refl ltac:(discriminate) eq_refl) as [cuts E].
  exists cuts. split; [exact E | apply (proj2 T cuts E)].
Defined.

(** A source that does not open gives the error with the path. *)
Lemma analyze_video_source_unavailable_witness :
  let CV := example_cv2 closed_capture in
  analyze_video "missing.mp4" default_detector 1
  = Err (ValueError "Could not open video file: missing.mp4").
Proof.
  exact (proj1 (@analyze_video_source_unavailable
                  (example_cv2 closed_capture)
                  "missing.mp4" default_detector 1 eq_refl)).
Defined.

(** The still clip has no cut; with tolerance -1 a state differs from
    itself. *)
Lemma same_state_no_cut_witness :
  let CV := example_cv2 still_capture in
  analyze_video "still.mp4" default_detector 1 = Ok []
  /\ states_significantly_different (mkDetector 10 10 (-1))
       (mkBarState 12 0 0 0) (mkBarState 12 0 0 0) = true.
Proof.
  cbv zeta. split.
  - destruct (@same_state_no_cut (example_cv2 still_capture) default_detector)
      as [Hpos _].
    assert (Htol : 0 <= tolerance_pixels default_detector) by (cbn; lia).
    destruct (Hpos Htol) as [_ Hrun].
    apply (Hrun "still.mp4"%string 1); [|reflexivity|discriminate].
    intros f1 f2 H1 H2. cbn in H1, H2.
    destruct H1 as [<- | [<- | [<- | []]]];
      destruct H2 as [<- | [<- | [<- | []]]]; reflexivity.
  - apply (proj2 (@same_state_no_cut (example_cv2 still_capture)
                    (mkDetector 10 10 (-1)))).
    cbn. lia.
Defined.

(** ** utils.py: planning the segments *)

Lemma linked_app (a b c : Z) (l1 l2 : list Segment) :
  linked a l1 b -> linked b l2 c -> linked a (l1 ++ l2) c.
Proof.
  revert a. induction l1 as [|s l1 IH]; intros a H1 H2.
  - cbn in H1. subst b. exact H2.
  - cbn in *. destruct H1 as [Hs H1]. split; [exact Hs | now apply IH].
Qed.

Lemma linked_chained (a b : Z) (segs : list Segment) :
  linked a segs b -> chained segs.
Proof.
  revert a. induction segs as [|s segs IH]; intros a H i s1 s2 H1 H2.
  - destruct i; discriminate.
  - cbn in H. destruct H as [_ H]. destruct i as [|i].
    + cbn in H1, H2. injection H1 as <-.
      destruct segs as [|s' segs]; [discriminate|].
      cbn in H2. injection H2 as <-. cbn in H. tauto.
    + cbn in H1. apply (IH _ H i s1 s2 H1 H2).
Qed.

Lemma linked_last (a b : Z) (segs : list Segment) (s : Segment) :
  linked a segs b -> hd_error (rev segs) = Some s -> end_frame s = b.
Proof.
  revert a. induction segs as [|s0 segs IH]; intros a H Hlast;
    [discriminate|].
  cbn in H. destruct H as [_ H]. cbn [rev] in Hlast.
  destruct segs as [|s1 segs].
  - cbn in Hlast. injection Hlast as <-. exact H.
  - apply (IH _ H). destruct (rev (s1 :: segs)) as [|x l] eqn:E.
    + apply (f_equal (@List.length _)) in E. rewrite length_rev in E.
      discriminate.
    + cbn in Hlast. exact Hlast.
Qed.

(** A non-empty run of segments from 0 to [total] is a partition in the
    sense of the specification. *)
Lemma linked_partitions (segs : list Segment) (total : Z) :
  segs <> [] -> linked 0 segs total -> partitions segs total.
Proof.
  intros Hne H. unfold partitions. split; [|split].
  - destruct segs as [|s segs]; [congruence|]. cbn in *. now f_equal.
  - eapply linked_chained, H.
  - destruct (rev segs) as [|s l] eqn:E.
    + apply (f_equal (@List.length _)) in E. rewrite length_rev in E.
      destruct segs; [congruence | discriminate].
    + cbn. f_equal. apply (linked_last 0 total segs); [exact H|].
      now rewrite E.
Qed.

Lemma last_rev_hd {A : Type} (l : list A) (x dflt : A) :
  hd_error (rev (x :: l)) = Some (last (x :: l) dflt).
Proof.
  revert x. induction l as [|y l IH]; intros x; [reflexivity|].
  specialize (IH y). cbn [rev] in *.
  destruct (rev l ++ [y]) as [|z t] eqn:E.
  - destruct (rev l); discriminate.
  - cbn in IH |- *. injection IH as ->. destruct l; reflexivity.
Qed.

Lemma segments_between_step (cut next : CutEvent) (cuts : list CutEvent)
    (i : Z) :
  segments_between (cut :: next :: cuts) i
  = mkSegment (frame_number cut) (frame_number next)
              ("segment_" ++ fmt_02d (i + 2)) (Some (after_state cut))
    :: segments_between (next :: cuts) (i + 1).
Proof. reflexivity. Qed.

(** The segments between the cuts lead from the first cut to the last. *)
Lemma segments_between_linked (cut : CutEvent) (cuts : list CutEvent) :
  forall i dflt,
    linked (frame_number cut) (segments_between (cut :: cuts) i)
           (frame_number (last (cut :: cuts) dflt)).
Proof.
  revert cut. induction cuts as [|next cuts IH]; intros cut i dflt.
  - reflexivity.
  - rewrite segments_between_step. cbn [linked start_frame end_frame].
    split; [reflexivity|]. apply (IH next (i + 1) dflt).
Qed.

Lemma segments_between_length (cuts : list CutEvent) :
  forall i, List.length (segments_between cuts i) = Nat.pred (List.length cuts).
Proof.
  induction cuts as [|cut cuts IH]; intros i; [reflexivity|].
  destruct cuts as [|next cuts]; [reflexivity|].
  rewrite segments_between_step. cbn [List.length]. rewrite IH. reflexivity.
Qed.

(** The [k]-th segment of the loop is the one the loop builds at index
    [i + k]. *)
Lemma segments_between_nth (cuts : list CutEvent) :
  forall i k ck ck',
    nth_error cuts k = Some ck -> nth_error cuts (S k) = Some ck' ->
    nth_error (segments_between cuts i) k
    = Some (mkSegment (frame_number ck) (frame_number ck')
                      ("segment_" ++ fmt_02d (i + Z.of_nat k + 2))
                      (Some (after_state ck))).
Proof.
  induction cuts as [|cut cuts IH]; intros i k ck ck' Hk Hk'.
  - destruct k; discriminate.
  - destruct cuts as [|next cuts]; [destruct k as [|[|k]]; discriminate|].
    destruct k as [|k].
    + cbn in Hk, Hk'. injection Hk as <-. injection Hk' as <-.
      rewrite segments_between_step. cbn [nth_error].
      replace (i + Z.of_nat 0 + 2) with (i + 2) by lia. reflexivity.
    + cbn [nth_error] in Hk.
      change (nth_error (next :: cuts) (S k) = Some ck') in Hk'.
      rewrite segments_between_step. cbn [nth_error].
      rewrite (IH (i + 1) k ck ck' Hk Hk').
      replace (i + 1 + Z.of_nat k + 2) with (i + Z.of_nat (S k) + 2) by lia.
      reflexivity.
Qed.

Lemma segments_between_ordered (cuts : list CutEvent) :
  forall i,
    StronglySorted Z.le (map frame_number cuts) ->
    Forall (fun s => start_frame s <= end_frame s) (segments_between cuts i).
Proof.
  induction cuts as [|cut cuts IH]; intros i Hs; [constructor|].
  destruct cuts as [|next cuts]; [constructor|].
  rewrite segments_between_step. cbn [map] in Hs.
  inversion Hs as [|? ? Hs' Hall]; subst. constructor.
  - cbn. inversion Hall; subst. assumption.
  - apply IH. exact Hs'.
Qed.

Lemma sorted_front (l : list Z) (x : Z) :
  StronglySorted Z.le (l ++ [x]) -> StronglySorted Z.le l.
Proof.
  induction l as [|y l IH]; intros Hs; [constructor|].
  cbn in Hs. inversion Hs as [|? ? Hs' Hall]; subst.
  constructor; [now apply IH|]. apply Forall_app in Hall. tauto.
Qed.

(** C1 (as amended): for every total frame count and every cut list that is
    empty or whose last cut is not beyond [total_frames], the planned
    segments cover [[0, total_frames)] from end to end: the first starts at
    0, each later one starts where the one before it ends, and the last ends
    at [total_frames]; when moreover the cut frames are non-negative and in
    order, no segment ends before it starts. *)
Theorem planned_segments_partition (cuts : list CutEvent) (total_frames : Z) :
  last_cut_within cuts total_frames ->
  partitions (split_video_by_cuts_segments cuts total_frames) total_frames
  /\ (cuts_in_order cuts total_frames ->
      Forall (fun s => start_frame s <= end_frame s)
             (split_video_by_cuts_segments cuts total_frames)).
Proof.
  intros Hlast. destruct cuts as [|first cuts].
  - split.
    + apply linked_partitions; [discriminate | now cbn].
    + intros Hord. cbn. constructor; [|constructor].
      cbn. unfold cuts_in_order in Hord. cbn in Hord.
      inversion Hord as [|? ? _ Hall]; subst. now inversion Hall.
  - pose proof (Hlast _ (last_rev_hd cuts first first)) as Hle.
    assert (Hfront : linked 0
              ([mkSegment 0 (frame_number first) "segment_01"
                          (Some (before_state first))]
               ++ segments_between (first :: cuts) 0)
              (frame_number (last (first :: cuts) first))).
    { apply (linked_app 0 (frame_number first)).
      - now cbn.
      - apply segments_between_linked. }
    unfold split_video_by_cuts_segments.
    destruct (Z.ltb_spec (frame_number (last (first :: cuts) first))
                         total_frames) as [Hlt | Hge].
    + split.
      * apply linked_partitions; [discriminate|].
        eapply linked_app; [exact Hfront | now cbn].
      * intros Hord. unfold cuts_in_order in Hord.
        inversion Hord as [|? ? Hs Hall]; subst.
        apply Forall_app. split; [apply Forall_app; split|].
        -- constructor; [|constructor]. cbn.
           inversion Hall; subst. assumption.
        -- eapply segments_between_ordered, sorted_front, Hs.
        -- constructor; [|constructor]. cbn [start_frame end_frame]. lia.
    + assert (E : frame_number (last (first :: cuts) first) = total_frames)
        by lia.
      split.
      * apply linked_partitions; [discriminate|]. rewrite <- E. exact Hfront.
      * intros Hord. unfold cuts_in_order in Hord.
        inversion Hord as [|? ? Hs Hall]; subst.
        apply Forall_app. split.
        -- constructor; [|constructor]. cbn.
           inversion Hall; subst. assumption.
        -- eapply segments_between_ordered, sorted_front, Hs.
Qed.

(** C1 fails when the last cut lies beyond the reported frame count: with one
    cut at frame 15 and [total_frames = 10] the only segment is [[0, 15)],
    which does not end at 10. *)
Lemma planned_segments_cut_beyond_end :
  split_video_by_cuts_segments [cut_at_15] 10
  = [mkSegment 0 15 "segment_01" (Some (mkBarState 12 0 0 0))]
  /\ ~ partitions (split_video_by_cuts_segments [cut_at_15] 10) 10.
Proof.
  split; [reflexivity|]. intros (_ & _ & Hend). cbn in Hend. discriminate.
Qed.

(** Two cuts in a 90-frame video give a partition into ordered segments. *)
Lemma planned_segments_partition_witness :
  partitions (split_video_by_cuts_segments [cut_at_15; cut_at_45] 90) 90
  /\ Forall (fun s => start_frame s <= end_frame s)
            (split_video_by_cuts_segments [cut_at_15; cut_at_45] 90).
Proof.
  assert (Hlast : last_cut_within [cut_at_15; cut_at_45] 90).
  { intros c Hc. cbn in Hc. injection Hc as <-. cbn. lia. }
  destruct (planned_segments_partition [cut_at_15; cut_at_45] 90 Hlast)
    as [Hpart Hord].
  split; [exact Hpart|]. apply Hord. unfold cuts_in_order. cbn.
  repeat constructor; cbn; lia.
Defined.

Lemma nth_error_Some_lt {A : Type} (l : list A) (i : nat) (x : A) :
  nth_error l i = Some x -> (i < List.length l)%nat.
Proof. intros H. apply nth_error_Some. congruence. Qed.

(** C3: with no cut there is exactly one segment, [[0, total_frames)], named
    with ordinal 1 and without a reference state.  With one or more cuts,
    segment 1 is [[0, cuts[0].frame_number)] with [cuts[0].before_state];
    for each adjacent pair the segment after the first [i + 1] ones is
    [[cuts[i].frame_number, cuts[i+1].frame_number)] with
    [cuts[i].after_state]; and a final segment
    [[cuts[last].frame_number, total_frames)] with [cuts[last].after_state]
    follows exactly when the last cut's frame number is strictly below
    [total_frames]. *)
Theorem planned_segments_layout (cuts : list CutEvent) (total_frames : Z) :
  let segs := split_video_by_cuts_segments cuts total_frames in
  (cuts = [] -> segs = [mkSegment 0 total_frames "segment_01" None])
  /\ forall first rest, cuts = first :: rest ->
       let last_cut := last cuts first in
       let n := List.length cuts in
       nth_error segs 0
       = Some (mkSegment 0 (frame_number first) "segment_01"
                         (Some (before_state first)))
       /\ (forall i ci cj,
             nth_error cuts i = Some ci -> nth_error cuts (S i) = Some cj ->
             nth_error segs (S i)
             = Some (mkSegment (frame_number ci) (frame_number cj)
                               ("segment_" ++ fmt_02d (Z.of_nat i + 2))
                               (Some (after_state ci))))
       /\ (frame_number last_cut < total_frames ->
           List.length segs = S n
           /\ nth_error segs n
              = Some (mkSegment (frame_number last_cut) total_frames
                                ("segment_" ++ fmt_02d (Z.of_nat n + 1))
                                (Some (after_state last_cut))))
       /\ (total_frames <= frame_number last_cut -> List.length segs = n).
Proof.
  intros segs. split; [intros ->; reflexivity|].
  intros first rest ->. intros last_cut n.
  set (front := [mkSegment 0 (frame_number first) "segment_01"
                           (Some (before_state first))]
                ++ segments_between (first :: rest) 0).
  assert (Hlen : List.length front = n).
  { unfold front. rewrite length_app, segments_between_length. reflexivity. }
  assert (Hsegs : segs
            = if frame_number last_cut <? total_frames
              then front ++ [mkSegment (frame_number last_cut) total_frames
                               ("segment_" ++ fmt_02d (Z.of_nat n + 1))
                               (Some (after_state last_cut))]
              else front) by reflexivity.
  assert (Hfront : forall i s, nth_error front i = Some s ->
                               nth_error segs i = Some s).
  { intros i s Hi. rewrite Hsegs.
    destruct (frame_number last_cut <? total_frames); [|exact Hi].
    rewrite nth_error_app1; [exact Hi | eapply nth_error_Some_lt, Hi]. }
  split; [now apply Hfront|]. split; [|split].
  - intros i ci cj Hi Hj. apply Hfront. unfold front. cbn [app nth_error].
    rewrite (segments_between_nth (first :: rest) 0 i ci cj Hi Hj).
    reflexivity.
  - intros Hlt. rewrite Hsegs.
    destruct (Z.ltb_spec (frame_number last_cut) total_frames); [|lia].
    split.
    + rewrite length_app, Hlen. cbn. lia.
    + rewrite nth_error_app2 by lia. rewrite Hlen, Nat.sub_diag. reflexivity.
  - intros Hge. rewrite Hsegs.
    destruct (Z.ltb_spec (frame_number last_cut) total_frames); [lia|].
    exact Hlen.
Qed.

(** The layout with no cut, with two cuts, and with the last cut at the end
    of the video. *)
Lemma planned_segments_layout_witness :
  split_video_by_cuts_segments [] 90 = [mkSegment 0 90 "segment_01" None]
  /\ nth_error (split_video_by_cuts_segments [cut_at_15; cut_at_45] 90) 1
     = Some (mkSegment 15 45 "segment_02" (Some (mkBarState 0 0 0 0)))
  /\ nth_error (split_video_by_cuts_segments [cut_at_15; cut_at_45] 90) 2
     = Some (mkSegment 45 90 "segment_03" (Some (mkBarState 0 0 20 20)))
  /\ List.length (split_video_by_cuts_segments [cut_at_15; cut_at_45] 45)
     = 2%nat.
Proof.
  split; [exact (proj1 (planned_segments_layout [] 90) eq_refl)|].
  split; [|split].
  - exact (proj1 (proj2 (proj2 (planned_segments_layout [cut_at_15; cut_at_45] 90)
                           cut_at_15 [cut_at_45] eq_refl))
                 0%nat cut_at_15 cut_at_45 eq_refl eq_refl).
  - apply (proj1 (proj2 (proj2 (proj2 (planned_segments_layout
                                          [cut_at_15; cut_at_45] 90)
                                  cut_at_15 [cut_at_45] eq_refl)))).
    cbn. lia.
  - apply (proj2 (proj2 (proj2 (proj2 (planned_segments_layout
                                          [cut_at_15; cut_at_45] 45)
                                  cut_at_15 [cut_at_45] eq_refl)))).
    cbn. lia.
Defined.

(** ** utils.py: the crop geometry *)

Lemma geb_ge (a b : Z) : (a >=? b) = true <-> a >= b.
Proof. rewrite Z.geb_leb, Z.leb_le. lia. Qed.

(** The filter string is empty or denotes the rectangle left after removing
    the bars, and it is that rectangle exactly when some bar is positive and
    both sides of the rectangle are at least 64. *)
Lemma crop_filter_cases (s : BarState) (width height : Z) :
  let cw := width - left_width s - right_width s in
  let ch := height - top_height s - bottom_height s in
  let has_bars := left_width s > 0 \/ right_width s > 0
                  \/ top_height s > 0 \/ bottom_height s > 0 in
  (has_bars /\ cw >= 64 /\ ch >= 64
   /\ _calculate_crop_filter s width height
      = render_crop (mkCrop (left_width s) (top_height s) cw ch))
  \/ (~ (has_bars /\ cw >= 64 /\ ch >= 64)
      /\ _calculate_crop_filter s width height = ""%string).
Proof.
  intros cw ch has_bars. unfold _calculate_crop_filter. fold cw ch.
  destruct ((left_width s >? 0) || (right_width s >? 0)
            || (top_height s >? 0) || (bottom_height s >? 0)) eqn:Hb;
    [destruct (cw >? 0) eqn:Hw0;
     [destruct (ch >? 0) eqn:Hh0;
      [destruct (cw >=? 64) eqn:Hw;
       [destruct (ch >=? 64) eqn:Hh|]|]|]|];
    cbn [andb].
  - left. rewrite !orb_true_iff, !gtb_gt in Hb.
    apply geb_ge in Hw, Hh. unfold has_bars. repeat split; tauto || lia.
  - right. split; [|reflexivity]. intros (_ & _ & H).
    apply geb_ge in H. congruence.
  - right. split; [|reflexivity]. intros (_ & H & _).
    apply geb_ge in H. congruence.
  - right. split; [|reflexivity]. intros (_ & _ & H).
    assert (ch > 0) as H0 by lia. apply gtb_gt in H0. congruence.
  - right. split; [|reflexivity]. intros (_ & H & _).
    assert (cw > 0) as H0 by lia. apply gtb_gt in H0. congruence.
  - right. split; [|reflexivity]. intros (H & _).
    rewrite !orb_false_iff in Hb. destruct Hb as [[[H1 H2] H3] H4].
    unfold has_bars in H. rewrite <- !gtb_gt in H.
    destruct H as [H | [H | [H | H]]]; congruence.
Qed.

Lemma render_crop_nonempty (r : CropRectangle) :
  (render_crop r =? "")%string = false.
Proof. reflexivity. Qed.

(** C4: the crop computation gives "no crop" (no filter argument) when the
    reference state is absent, when all four bar sizes are 0, and when
    [crop_width = width - left - right] or
    [crop_height = height - top - bottom] is at most 0 or below 64;
    otherwise, for every bar state of the data model (four non-negative
    sizes), it gives the rectangle
    [(x = left, y = top, width = crop_width, height = crop_height)];
    hence every rectangle it gives is at least 64 wide and 64 high. *)
Theorem crop_rule (s : BarState) (width height : Z) :
  let cw := width - left_width s - right_width s in
  let ch := height - top_height s - bottom_height s in
  let no_bars := left_width s = 0 /\ right_width s = 0
                 /\ top_height s = 0 /\ bottom_height s = 0 in
  let rect := mkCrop (left_width s) (top_height s) cw ch in
  crop_arguments None width height = []
  /\ (no_bars \/ cw <= 0 \/ ch <= 0 \/ cw < 64 \/ ch < 64 ->
      crop_arguments (Some s) width height = []
      /\ _calculate_crop_filter s width height = ""%string)
  /\ (nonneg_state s ->
      ~ (no_bars \/ cw <= 0 \/ ch <= 0 \/ cw < 64 \/ ch < 64) ->
      crop_arguments (Some s) width height = ["-vf"%string; render_crop rect]
      /\ _calculate_crop_filter s width height = render_crop rect)
  /\ (crop_arguments (Some s) width height <> [] ->
      crop_arguments (Some s) width height = ["-vf"%string; render_crop rect]
      /\ crop_x rect = left_width s /\ crop_y rect = top_height s
      /\ crop_w rect >= 64 /\ crop_h rect >= 64).
Proof.
  intros cw ch no_bars rect.
  pose proof (crop_filter_cases s width height) as Hc. cbv zeta in Hc.
  fold cw ch rect in Hc.
  split; [reflexivity|].
  assert (Hnone : _calculate_crop_filter s width height = ""%string ->
                  crop_arguments (Some s) width height = []).
  { intros E. unfold crop_arguments. rewrite E.
    now destruct ((width >? 0) && (height >? 0)). }
  assert (Hargs : _calculate_crop_filter s width height = render_crop rect ->
                  crop_arguments (Some s) width height
                  = if (width >? 0) && (height >? 0)
                    then ["-vf"%string; render_crop rect] else []).
  { intros E. unfold crop_arguments. rewrite E. cbv zeta.
    now rewrite render_crop_nonempty. }
  destruct Hc as [(Hb & Hw & Hh & E) | (Hno & E)].
  - specialize (Hargs E). split; [|split].
    + intros H. exfalso. unfold no_bars in H. lia.
    + intros Hnn _. split; [|exact E]. rewrite Hargs.
      assert (Hpos : (width >? 0) && (height >? 0) = true).
      { unfold nonneg_state in Hnn. apply andb_true_intro.
        rewrite !gtb_gt. subst cw ch. lia. }
      now rewrite Hpos.
    + intros Hne. rewrite Hargs in Hne |- *.
      destruct ((width >? 0) && (height >? 0)); [|congruence].
      split; [reflexivity|]. cbn. repeat split; lia.
  - split; [|split].
    + intros _. split; [now apply Hnone | exact E].
    + intros Hnn H. exfalso. apply H. unfold no_bars.
      unfold nonneg_state in Hnn.
      assert (D : (left_width s > 0 \/ right_width s > 0
                   \/ top_height s > 0 \/ bottom_height s > 0)
                  \/ (left_width s = 0 /\ right_width s = 0
                      /\ top_height s = 0 /\ bottom_height s = 0)) by lia.
      destruct D as [Hb | Hz]; [|now left].
      right. apply Decidable.not_and in Hno;
        [|unfold Decidable.decidable; tauto].
      destruct Hno as [Hno | Hno]; [tauto|]. lia.
    + intros H. exfalso. apply H, Hnone, E.
Qed.

(** Letterbox bars of 20 rows are cropped from a 640x480 frame; no bars, or
    bars that leave fewer than 64 columns, give no crop. *)
Lemma crop_rule_witness :
  crop_arguments (Some (mkBarState 0 0 20 20)) 640 480
  = ["-vf"%string; "crop=640:440:0:20"%string]
  /\ crop_arguments (Some (mkBarState 0 0 0 0)) 640 480 = []
  /\ crop_arguments (Some (mkBarState 300 300 0 0)) 640 480 = [].
Proof.
  assert (N : nonneg_state (mkBarState 0 0 20 20))
    by (cbv; intuition discriminate).
  split; [|split].
  - apply (proj1 (proj2 (proj2 (crop_rule (mkBarState 0 0 20 20) 640 480))) N).
    cbn. lia.
  - apply (proj1 (proj2 (crop_rule (mkBarState 0 0 0 0) 640 480))).
    left. cbn. repeat split.
  - apply (proj1 (proj2 (crop_rule (mkBarState 300 300 0 0) 640 480))).
    right. right. right. left. cbn. lia.
Defined.

(** The scenario of the specification: one cut, at frame 100 and 3.33 s, and
    two segments, [[0, 100)] cropped by the side bars and [[100, 300)]. *)
Example scenario_cut_and_segments :
  let CV := example_cv2 scenario_capture in
  analyze_video "compilation.mp4" default_detector 1
  = Ok [mkCutEvent 0x1.aaaaaaaaaaaabp+1 100
                   (mkBarState 10 10 0 0) (mkBarState 0 0 0 0)]
  /\ split_video_by_cuts_segments
       [mkCutEvent 0x1.aaaaaaaaaaaabp+1 100
                   (mkBarState 10 10 0 0) (mkBarState 0 0 0 0)] 300
     = [mkSegment 0 100 "segment_01" (Some (mkBarState 10 10 0 0));
        mkSegment 100 300 "segment_02" (Some (mkBarState 0 0 0 0))].
Proof. split; vm_compute; reflexivity. Qed.

(** Segment names are zero-padded to two digits. *)
Example segment_names :
  map fmt_02d [1; 2; 9; 10; 123] = ["01"; "02"; "09"; "10"; "123"]%string.
Proof. reflexivity. Qed.

(** * Further properties *)

(** ** detector.py: the other three scans *)

(** Scanning downward from [m - 1] counts the dark run at the far end. *)
Lemma scan_down_prefix (threshold : Z) (line : nat -> list Z) (n m : nat) :
  (m <= n)%nat ->
  scan threshold line (fun i => Z.of_nat n - Z.of_nat i) (rev (seq 0 m))
       (Z.of_nat n - Z.of_nat m)
  = Z.of_nat n - Z.of_nat m
    + Z.of_nat (List.length (take_while (dark threshold line) (rev (seq 0 m)))).
Proof.
  induction m as [|m IH]; intros Hm.
  - cbn. lia.
  - rewrite seq_S, rev_app_distr. cbn [Nat.add rev app take_while].
    rewrite scan_cons. destruct (dark threshold line m).
    + rewrite IH by lia. cbn [List.length]. lia.
    + cbn [List.length]. lia.
Qed.

Lemma scan_down_length (threshold : Z) (line : nat -> list Z) (n : nat) :
  scan threshold line (fun i => Z.of_nat n - Z.of_nat i) (range_down n) 0
  = Z.of_nat (List.length (take_while (dark threshold line) (range_down n))).
Proof.
  unfold range_down.
  pose proof (scan_down_prefix threshold line n n (Nat.le_refl n)) as H.
  rewrite Z.sub_diag in H. rewrite H. lia.
Qed.

Lemma scan_up_length (threshold : Z) (line : nat -> list Z) (n : nat) :
  scan threshold line (fun i => Z.of_nat i + 1) (range n) 0
  = Z.of_nat (List.length (take_while (dark threshold line) (range n))).
Proof.
  unfold range. pose proof (scan_up_prefix threshold line n 0) as H.
  change (Z.of_nat 0) with 0 in H. rewrite H. lia.
Qed.

Lemma take_while_mono {A : Type} (p q : A -> bool) (l : list A) :
  (forall x, p x = true -> q x = true) ->
  (List.length (take_while p l) <= List.length (take_while q l))%nat.
Proof.
  intros H. induction l as [|x l IH]; [reflexivity|].
  cbn [take_while]. destruct (p x) eqn:Hp.
  - rewrite (H x Hp). cbn. lia.
  - cbn. lia.
Qed.

(** The prefix ends at the latest where an element fails the test. *)
Lemma take_while_stop_le {A : Type} (p : A -> bool) (l1 l2 : list A) (x : A) :
  p x = false ->
  (List.length (take_while p (l1 ++ x :: l2)) <= List.length l1)%nat.
Proof.
  intros Hx. induction l1 as [|y l1 IH]; cbn [app take_while].
  - now rewrite Hx.
  - destruct (p y); cbn; lia.
Qed.

Lemma range_split (n c : nat) :
  (c < n)%nat -> range n = seq 0 c ++ c :: seq (S c) (n - S c).
Proof.
  intros Hc. unfold range.
  replace n with (c + S (n - S c))%nat at 1 by lia.
  rewrite seq_app. reflexivity.
Qed.

Lemma take_while_range_le (p : nat -> bool) (n c : nat) :
  (c < n)%nat -> p c = false ->
  (List.length (take_while p (range n)) <= c)%nat.
Proof.
  intros Hc Hp. rewrite (range_split n c Hc).
  etransitivity; [apply take_while_stop_le, Hp|]. now rewrite length_seq.
Qed.

Lemma take_while_range_down_le (p : nat -> bool) (n c : nat) :
  (c < n)%nat -> p c = false ->
  (List.length (take_while p (range_down n)) <= n - S c)%nat.
Proof.
  intros Hc Hp. unfold range_down. change (seq 0 n) with (range n).
  rewrite (range_split n c Hc), rev_app_distr. cbn [rev].
  rewrite <- app_assoc. cbn [app].
  etransitivity; [apply take_while_stop_le, Hp|].
  now rewrite length_rev, length_seq.
Qed.

Lemma row_nonempty (gray : GrayImage) (row : nat) :
  (0 < g_cols gray)%nat -> row_of gray row <> [].
Proof.
  unfold row_of. destruct (g_cols gray) as [|c]; [lia|]. now cbn.
Qed.

Lemma min_size_filter_if (d : BlackBarDetector) (x : Z) :
  min_size_filter d x = if x <? min_bar_size d then 0 else x.
Proof.
  destruct (min_size_filter_cases d x) as [[H ->] | [H ->]];
    destruct (Z.ltb_spec x (min_bar_size d)); lia.
Qed.

Lemma min_size_filter_le (d : BlackBarDetector) (x : Z) :
  0 <= x -> min_size_filter d x <= x.
Proof.
  intros Hx. destruct (min_size_filter_cases d x) as [[_ ->] | [_ ->]]; lia.
Qed.

(** A detector that is more permissive in both parameters keeps a size at
    least as large. *)
Lemma min_size_filter_mono (d1 d2 : BlackBarDetector) (x y : Z) :
  min_bar_size d2 <= min_bar_size d1 -> 0 <= x <= y ->
  min_size_filter d1 x <= min_size_filter d2 y.
Proof.
  intros Hmin Hxy.
  destruct (min_size_filter_cases d1 x) as [[H1 ->] | [H1 ->]];
    destruct (min_size_filter_cases d2 y) as [[H2 ->] | [H2 ->]]; lia.
Qed.

Lemma mean_gt_antitone (m : option Q) (t1 t2 : Z) :
  t1 <= t2 -> mean_gt m t2 = true -> mean_gt m t1 = true.
Proof.
  intros Ht. destruct m as [q|]; cbn; [|congruence].
  rewrite !negb_true_iff. intros H2.
  apply not_true_is_false. intros H1. apply Qle_bool_iff in H1.
  assert (H : Qle_bool q (inject_Z t2) = true).
  { apply Qle_bool_iff. eapply Qle_trans; [exact H1|].
    rewrite <- Zle_Qle. exact Ht. }
  congruence.
Qed.

Lemma dark_mono (t1 t2 : Z) (line : nat -> list Z) (i : nat) :
  t1 <= t2 -> dark t1 line i = true -> dark t2 line i = true.
Proof.
  unfold dark. intros Ht. rewrite !negb_true_iff. intros H1.
  apply not_true_is_false. intros H2.
  apply (mean_gt_antitone _ t1 t2 Ht) in H2. congruence.
Qed.

Section OtherScans.
Context `{CV : cv2}.

(** The four measured sizes as filtered lengths of dark runs. *)
Lemma bar_state_lengths (d : BlackBarDetector) (frame : ndarray) :
  let gray := to_gray frame in
  let t := black_threshold d in
  get_frame_bar_state d frame
  = mkBarState
      (min_size_filter d (Z.of_nat (List.length
         (take_while (dark t (column gray)) (range (g_cols gray))))))
      (min_size_filter d (Z.of_nat (List.length
         (take_while (dark t (column gray)) (range_down (g_cols gray))))))
      (min_size_filter d (Z.of_nat (List.length
         (take_while (dark t (row_of gray)) (range (g_rows gray))))))
      (min_size_filter d (Z.of_nat (List.length
         (take_while (dark t (row_of gray)) (range_down (g_rows gray)))))).
Proof.
  intros gray t.
  unfold get_frame_bar_state, detect_vertical_bars, detect_horizontal_bars.
  fold gray. fold t.
  now rewrite !scan_up_length, !scan_down_length.
Qed.

Lemma dark_columns_black (d : BlackBarDetector) (gray : GrayImage)
    (idxs : list nat) :
  (0 < g_rows gray)%nat ->
  take_while (dark (black_threshold d) (column gray)) idxs
  = take_while (col_black d gray) idxs.
Proof.
  intros Hrows. apply take_while_ext. intros col _. unfold dark, col_black.
  apply not_gt_is_le, column_nonempty, Hrows.
Qed.

Lemma dark_rows_black (d : BlackBarDetector) (gray : GrayImage)
    (idxs : list nat) :
  (0 < g_cols gray)%nat ->
  take_while (dark (black_threshold d) (row_of gray)) idxs
  = take_while (row_black d gray) idxs.
Proof.
  intros Hcols. apply take_while_ext. intros row _. unfold dark, row_black.
  apply not_gt_is_le, row_nonempty, Hcols.
Qed.

(** X1: on every frame with at least one row, the measured right bar width
    is the length of the longest run of columns, from the last column
    leftward, whose mean luminance is at most [black_threshold], replaced by
    0 when that length is below [min_bar_size]. *)
Theorem right_width_is_filtered_black_suffix
    (d : BlackBarDetector) (frame : ndarray) :
  (0 < frame_height frame)%nat ->
  let len := Z.of_nat (black_suffix_len d (to_gray frame)) in
  snd (detect_vertical_bars d frame) = (if len <? min_bar_size d then 0 else len).
Proof.
  rewrite <- to_gray_rows. intros Hrows len.
  unfold detect_vertical_bars. cbn [snd].
  rewrite scan_down_length, (dark_columns_black d _ _ Hrows).
  apply min_size_filter_if.
Qed.

(** X2: on every frame with at least one column, the measured top and
    bottom bar heights are the lengths of the longest runs of rows, from the
    first row downward and from the last row upward, whose mean luminance is
    at most [black_threshold], each replaced by 0 when below
    [min_bar_size]. *)
Theorem heights_are_filtered_black_runs
    (d : BlackBarDetector) (frame : ndarray) :
  (0 < frame_width frame)%nat ->
  let top := Z.of_nat (black_rows_top d (to_gray frame)) in
  let bottom := Z.of_nat (black_rows_bottom d (to_gray frame)) in
  detect_horizontal_bars d frame
  = (if top <? min_bar_size d then 0 else top,
     if bottom <? min_bar_size d then 0 else bottom).
Proof.
  rewrite <- to_gray_cols. intros Hcols top bottom.
  unfold detect_horizontal_bars.
  rewrite scan_up_length, scan_down_length, !(dark_rows_black d _ _ Hcols).
  now rewrite !min_size_filter_if.
Qed.

(** X3: a bright column bounds the bars on both sides of it: the left bar
    ends at or before it and the right bar starts after it, so the two bars
    do not overlap and leave at least one column; likewise a bright row
    bounds the top and bottom bars. *)
Theorem bright_line_separates_bars (d : BlackBarDetector) (frame : ndarray) :
  let s := get_frame_bar_state d frame in
  let gray := to_gray frame in
  (forall col, (col < frame_width frame)%nat -> col_bright d gray col = true ->
     left_width s <= Z.of_nat col
     /\ right_width s <= Z.of_nat (frame_width frame) - 1 - Z.of_nat col
     /\ left_width s + right_width s < Z.of_nat (frame_width frame))
  /\ (forall row, (row < frame_height frame)%nat ->
        row_bright d gray row = true ->
        top_height s <= Z.of_nat row
        /\ bottom_height s <= Z.of_nat (frame_height frame) - 1 - Z.of_nat row
        /\ top_height s + bottom_height s < Z.of_nat (frame_height frame)).
Proof.
  rewrite <- to_gray_rows, <- to_gray_cols. intros s gray.
  subst s. rewrite bar_state_lengths. fold gray.
  cbn [left_width right_width top_height bottom_height].
  split.
  - intros col Hcol Hbright.
    assert (Hd : dark (black_threshold d) (column gray) col = false).
    { unfold dark. unfold col_bright in Hbright. now rewrite Hbright. }
    pose proof (take_while_range_le _ _ _ Hcol Hd) as Hl.
    pose proof (take_while_range_down_le _ _ _ Hcol Hd) as Hr.
    pose proof (min_size_filter_le d _ (Nat2Z.is_nonneg (List.length
      (take_while (dark (black_threshold d) (column gray))
                  (range (g_cols gray)))))) as Fl.
    pose proof (min_size_filter_le d _ (Nat2Z.is_nonneg (List.length
      (take_while (dark (black_threshold d) (column gray))
                  (range_down (g_cols gray)))))) as Fr.
    lia.
  - intros row Hrow Hbright.
    assert (Hd : dark (black_threshold d) (row_of gray) row = false).
    { unfold dark. unfold row_bright in Hbright. now rewrite Hbright. }
    pose proof (take_while_range_le _ _ _ Hrow Hd) as Hl.
    pose proof (take_while_range_down_le _ _ _ Hrow Hd) as Hr.
    pose proof (min_size_filter_le d _ (Nat2Z.is_nonneg (List.length
      (take_while (dark (black_threshold d) (row_of gray))
                  (range (g_rows gray)))))) as Fl.
    pose proof (min_size_filter_le d _ (Nat2Z.is_nonneg (List.length
      (take_while (dark (black_threshold d) (row_of gray))
                  (range_down (g_rows gray)))))) as Fr.
    lia.
Qed.

End OtherScans.

Lemma min_size_filter_zero (d : BlackBarDetector) : min_size_filter d 0 = 0.
Proof.
  destruct (min_size_filter_cases d 0) as [[_ ->] | [_ ->]]; reflexivity.
Qed.

Lemma take_while_range_first (p : nat -> bool) (n : nat) :
  p 0%nat = false -> List.length (take_while p (range n)) = 0%nat.
Proof.
  intros Hp. destruct n as [|n]; [reflexivity|].
  pose proof (take_while_range_le p (S n) 0 (Nat.lt_0_succ n) Hp). lia.
Qed.

Lemma take_while_range_down_first (p : nat -> bool) (n : nat) :
  p (n - 1)%nat = false -> List.length (take_while p (range_down n)) = 0%nat.
Proof.
  intros Hp. destruct n as [|n]; [reflexivity|].
  replace (S n - 1)%nat with n in Hp by lia.
  pose proof (take_while_range_down_le p (S n) n (Nat.lt_succ_diag_r n) Hp).
  lia.
Qed.

Section BrightAndMonotone.
Context `{CV : cv2}.

(** X4: a frame whose first and last columns and first and last rows are
    all bright measures the state (0, 0, 0, 0), whatever lies between
    them. *)
Theorem bright_borders_no_bars (d : BlackBarDetector) (frame : ndarray) :
  let gray := to_gray frame in
  col_bright d gray 0 = true ->
  col_bright d gray (frame_width frame - 1) = true ->
  row_bright d gray 0 = true ->
  row_bright d gray (frame_height frame - 1) = true ->
  get_frame_bar_state d frame = mkBarState 0 0 0 0.
Proof.
  rewrite <- to_gray_rows, <- to_gray_cols.
  intros gray Hc0 Hc1 Hr0 Hr1. rewrite bar_state_lengths.
  unfold col_bright, row_bright in *. subst gray.
  set (gray := to_gray frame) in *. set (t := black_threshold d) in *.
  assert (D0 : dark t (column gray) 0 = false)
    by (unfold dark; now rewrite Hc0).
  assert (D1 : dark t (column gray) (g_cols gray - 1) = false)
    by (unfold dark; now rewrite Hc1).
  assert (D2 : dark t (row_of gray) 0 = false)
    by (unfold dark; now rewrite Hr0).
  assert (D3 : dark t (row_of gray) (g_rows gray - 1) = false)
    by (unfold dark; now rewrite Hr1).
  rewrite (take_while_range_first _ _ D0), (take_while_range_down_first _ _ D1),
    (take_while_range_first _ _ D2), (take_while_range_down_first _ _ D3).
  cbn [Z.of_nat]. now rewrite min_size_filter_zero.
Qed.

(** X5: a detector that is at least as permissive in both measuring
    parameters (a black threshold at least as high, a minimum bar size at
    most as large) measures, on the same frame, bars at least as large on
    all four sides. *)
Theorem measured_state_monotone (d1 d2 : BlackBarDetector) (frame : ndarray) :
  black_threshold d1 <= black_threshold d2 ->
  min_bar_size d2 <= min_bar_size d1 ->
  let s1 := get_frame_bar_state d1 frame in
  let s2 := get_frame_bar_state d2 frame in
  left_width s1 <= left_width s2 /\ right_width s1 <= right_width s2
  /\ top_height s1 <= top_height s2 /\ bottom_height s1 <= bottom_height s2.
Proof.
  intros Ht Hmin s1 s2. subst s1 s2. rewrite !bar_state_lengths.
  cbn [left_width right_width top_height bottom_height].
  repeat split; apply min_size_filter_mono; try exact Hmin;
    (split; [apply Nat2Z.is_nonneg|]); apply inj_le, take_while_mono;
    intros i; apply dark_mono, Ht.
Qed.

End BrightAndMonotone.

(** The frame with side bars of ten columns measures a right bar of 10. *)
Lemma right_width_is_filtered_black_suffix_witness :
  let CV := example_cv2 closed_capture in
  snd (detect_vertical_bars default_detector side_bars_frame) = 10.
Proof.
  cbv zeta.
  rewrite (@right_width_is_filtered_black_suffix
             (example_cv2 closed_capture) default_detector side_bars_frame
             (Nat.lt_0_succ 1)).
  reflexivity.
Defined.

(** The letterboxed frame measures a top bar of 12 and a bottom bar of 15. *)
Lemma heights_are_filtered_black_runs_witness :
  let CV := example_cv2 closed_capture in
  detect_horizontal_bars default_detector letterbox_frame = (12, 15).
Proof.
  cbv zeta.
  rewrite (@heights_are_filtered_black_runs
             (example_cv2 closed_capture) default_detector letterbox_frame
             (Nat.lt_0_succ 3)).
  reflexivity.
Defined.

(** Column 20 of the frame with side bars is bright, so its bars leave
    room. *)
Lemma bright_line_separates_bars_witness :
  let CV := example_cv2 closed_capture in
  let s := get_frame_bar_state default_detector side_bars_frame in
  left_width s + right_width s < 40.
Proof.
  cbv zeta.
  apply (proj1 (@bright_line_separates_bars
                  (example_cv2 closed_capture)
                  default_detector side_bars_frame) 20%nat);
    [cbn; lia | reflexivity].
Defined.

(** The bright sample frame has no bars. *)
Lemma bright_borders_no_bars_witness :
  let CV := example_cv2 closed_capture in
  get_frame_bar_state default_detector bright_frame = mkBarState 0 0 0 0.
Proof.
  cbv zeta.
  apply (@bright_borders_no_bars (example_cv2 closed_capture)
                                 default_detector bright_frame);
    reflexivity.
Defined.

(** Raising the threshold from 10 to 50 and lowering the minimum size from
    10 to 5 does not shrink the left bar of the pillarboxed frame. *)
Lemma measured_state_monotone_witness :
  let CV := example_cv2 closed_capture in
  left_width (get_frame_bar_state default_detector pillarbox_frame)
  <= left_width (get_frame_bar_state (mkDetector 50 5 5) pillarbox_frame).
Proof.
  cbv zeta.
  apply (@measured_state_monotone (example_cv2 closed_capture)
           default_detector (mkDetector 50 5 5) pillarbox_frame);
    cbn; lia.
Defined.

(** ** models.py and detector.py: equality and significance *)

Lemma BarState_eq_true_fields (s1 s2 : BarState) :
  BarState_eq s1 s2 = true
  <-> left_width s1 = left_width s2 /\ right_width s1 = right_width s2
      /\ top_height s1 = top_height s2 /\ bottom_height s1 = bottom_height s2.
Proof.
  unfold BarState_eq. rewrite !andb_true_iff, !Z.eqb_eq. tauto.
Qed.

(** X6: [BarState.__eq__] holds exactly when the two states have the same
    four fields. *)
Theorem BarState_eq_iff (s1 s2 : BarState) :
  BarState_eq s1 s2 = true <-> s1 = s2.
Proof.
  unfold BarState_eq. rewrite !andb_true_iff, !Z.eqb_eq. split.
  - intros [[[Hl Hr] Ht] Hb]. destruct s1, s2. cbn in *. congruence.
  - intros ->. tauto.
Qed.

(** X7: with a tolerance of 0 two states are significantly different exactly
    when [BarState.__eq__] says they are not equal. *)
Theorem zero_tolerance_is_inequality (d : BlackBarDetector) (s1 s2 : BarState) :
  tolerance_pixels d = 0 ->
  states_significantly_different d s1 s2 = negb (BarState_eq s1 s2).
Proof.
  intros Htol.
  destruct (states_significantly_different d s1 s2) eqn:Hs;
    destruct (BarState_eq s1 s2) eqn:He; try reflexivity; exfalso.
  - apply BarState_eq_true_fields in He. apply significantly_different_iff in Hs.
    unfold exceeds_tolerance in Hs. lia.
  - assert (H : ~ exceeds_tolerance (tolerance_pixels d) s1 s2).
    { rewrite <- significantly_different_iff. congruence. }
    assert (E : BarState_eq s1 s2 = true).
    { apply BarState_eq_true_fields. unfold exceeds_tolerance in H. lia. }
    congruence.
Qed.

(** A detector with tolerance 0 tells (12, 0, 0, 0) from (12, 0, 0, 1). *)
Lemma zero_tolerance_is_inequality_witness :
  states_significantly_different (mkDetector 10 10 0)
    (mkBarState 12 0 0 0) (mkBarState 12 0 0 1) = true.
Proof.
  rewrite (zero_tolerance_is_inequality (mkDetector 10 10 0) _ _ eq_refl).
  reflexivity.
Defined.

(** ** analyzer.py: more on the detector run *)

Lemma mod_opp_zero (n sr : Z) : (n mod - sr =? 0) = (n mod sr =? 0).
Proof.
  destruct (Z.eq_dec sr 0) as [-> | Hsr]; [reflexivity|].
  destruct (Z.eqb_spec (n mod sr) 0) as [H | H].
  - apply Z.eqb_eq. now apply Z.mod_opp_r_z.
  - apply Z.eqb_neq. intros H'. apply H.
    rewrite <- (Z.opp_involutive sr). apply Z.mod_opp_r_z; [lia | exact H'].
Qed.



Section MoreOnRuns.
Context `{CV : cv2}.
Variable d : BlackBarDetector.

(** One turn of the loop. *)
Lemma read_loop_step (sample_rate : Z) (fps : float) (frame : ndarray)
    (frames : list ndarray) (cuts : list CutEvent) (prev : option BarState)
    (n : Z) :
  read_loop d sample_rate fps (frame :: frames) cuts prev n
  = if sample_rate =? 0 then Err ZeroDivisionError
    else if n mod sample_rate =? 0 then
      let cur := get_frame_bar_state d frame in
      match prev with
      | Some p =>
          if states_significantly_different d p cur then
            if PrimFloat.eqb fps zero then Err ZeroDivisionError
            else read_loop d sample_rate fps frames
                   (cuts ++ [mkCutEvent (PrimFloat.div (float_of_int n) fps)
                                        n p cur])
                   (Some cur) (n + 1)
          else read_loop d sample_rate fps frames cuts (Some cur) (n + 1)
      | None => read_loop d sample_rate fps frames cuts (Some cur) (n + 1)
      end
    else read_loop d sample_rate fps frames cuts prev (n + 1).
Proof.
  cbn [read_loop]. unfold py_mod, truediv.
  destruct (sample_rate =? 0); [reflexivity|]. cbn [bind].
  destruct (n mod sample_rate =? 0); [|reflexivity]. cbv zeta.
  destruct prev as [p|]; [|reflexivity].
  destruct (states_significantly_different d p (get_frame_bar_state d frame));
    [|reflexivity].
  destruct (PrimFloat.eqb fps zero); reflexivity.
Qed.

Lemma numbered_upper (frames : list ndarray) (n : Z) (p : Z * BarState) :
  In p (numbered d n frames) -> fst p < n + Z.of_nat (List.length frames).
Proof.
  revert n. induction frames as [|f frames IH]; intros n Hp; [easy|].
  cbn [numbered] in Hp. cbn [List.length]. rewrite Nat2Z.inj_succ.
  destruct Hp as [<- | Hp]; [cbn; lia|].
  specialize (IH _ Hp). lia.
Qed.

(** The loop is the fold over the visited frames. *)
Lemma read_loop_fold (sample_rate : Z) (fps : float) (frames : list ndarray) :
  sample_rate <> 0 ->
  forall cuts prev n,
    read_loop d sample_rate fps frames cuts prev n
    = fold_visited d fps (visited_of sample_rate (numbered d n frames))
                   cuts prev.
Proof.
  intros Hsr. induction frames as [|f frames IH]; intros cuts prev n;
    [reflexivity|].
  rewrite read_loop_step. cbn [numbered visited_of filter fst].
  destruct (Z.eqb_spec sample_rate 0); [contradiction|].
  destruct (n mod sample_rate =? 0); [|apply IH].
  cbn [fold_visited]. cbv zeta. unfold truediv.
  destruct prev as [p|]; [|cbn [bind]; apply IH].
  destruct (states_significantly_different d p (get_frame_bar_state d f));
    [|cbn [bind]; apply IH].
  destruct (PrimFloat.eqb fps zero); [reflexivity|]. cbn [bind]. apply IH.
Qed.

(** Every event that the loop appends keeps a property that holds of every
    event it can build. *)
Lemma read_loop_all (P : CutEvent -> Prop) (sample_rate : Z) (fps : float)
    (frames : list ndarray) :
  (forall k p c,
     states_significantly_different d p c = true ->
     PrimFloat.eqb fps zero = false ->
     P (mkCutEvent (PrimFloat.div (float_of_int k) fps) k p c)) ->
  forall cuts prev n out,
    read_loop d sample_rate fps frames cuts prev n = Ok out ->
    Forall P cuts -> Forall P out.
Proof.
  intros HP. induction frames as [|f frames IH]; intros cuts prev n out Hrun Hc.
  - cbn in Hrun. now injection Hrun as <-.
  - rewrite read_loop_step in Hrun.
    destruct (sample_rate =? 0); [discriminate|].
    destruct (n mod sample_rate =? 0); [|eapply IH; eassumption].
    cbv zeta in Hrun. destruct prev as [p|]; [|eapply IH; eassumption].
    destruct (states_significantly_different d p (get_frame_bar_state d f))
      eqn:Hs; [|eapply IH; eassumption].
    destruct (PrimFloat.eqb fps zero) eqn:Hf; [discriminate|].
    eapply IH; [exact Hrun|]. apply Forall_app. split; [exact Hc|].
    constructor; [|constructor]. now apply HP.
Qed.

(** The loop only appends. *)
Lemma read_loop_extends (sample_rate : Z) (fps : float) (frames : list ndarray) :
  forall cuts prev n out,
    read_loop d sample_rate fps frames cuts prev n = Ok out ->
    exists rest, out = cuts ++ rest.
Proof.
  induction frames as [|f frames IH]; intros cuts prev n out Hrun.
  - cbn in Hrun. injection Hrun as <-. exists []. now rewrite app_nil_r.
  - rewrite read_loop_step in Hrun.
    destruct (sample_rate =? 0); [discriminate|].
    destruct (n mod sample_rate =? 0); [|eapply IH; eassumption].
    cbv zeta in Hrun. destruct prev as [p|]; [|eapply IH; eassumption].
    destruct (states_significantly_different d p (get_frame_bar_state d f));
      [|eapply IH; eassumption].
    destruct (PrimFloat.eqb fps zero); [discriminate|].
    apply IH in Hrun as [rest ->]. rewrite <- app_assoc. eauto.
Qed.

(** A run over more frames starts with the run over fewer. *)
Lemma read_loop_prefix (sample_rate : Z) (fps : float)
    (frames more : list ndarray) :
  forall cuts prev n out,
    read_loop d sample_rate fps (frames ++ more) cuts prev n = Ok out ->
    exists out1 rest,
      read_loop d sample_rate fps frames cuts prev n = Ok out1
      /\ out = out1 ++ rest.
Proof.
  induction frames as [|f frames IH]; intros cuts prev n out Hrun.
  - cbn [app] in Hrun. apply read_loop_extends in Hrun as [rest ->].
    now exists cuts, rest.
  - cbn [app] in Hrun. rewrite read_loop_step in Hrun. rewrite read_loop_step.
    destruct (sample_rate =? 0); [discriminate|].
    destruct (n mod sample_rate =? 0); [|now apply IH].
    cbv zeta in *. destruct prev as [p|]; [|now apply IH].
    destruct (states_significantly_different d p (get_frame_bar_state d f));
      [|now apply IH].
    destruct (PrimFloat.eqb fps zero); [discriminate|]. now apply IH.
Qed.

(** A negative sample rate visits the frames that its absolute value
    visits. *)
Lemma read_loop_opp (sample_rate : Z) (fps : float) (frames : list ndarray) :
  forall cuts prev n,
    read_loop d (- sample_rate) fps frames cuts prev n
    = read_loop d sample_rate fps frames cuts prev n.
Proof.
  induction frames as [|f frames IH]; intros cuts prev n; [reflexivity|].
  rewrite !read_loop_step, mod_opp_zero.
  replace (- sample_rate =? 0) with (sample_rate =? 0)
    by (destruct (Z.eqb_spec sample_rate 0), (Z.eqb_spec (- sample_rate) 0);
        lia || reflexivity).
  destruct (sample_rate =? 0); [reflexivity|].
  destruct (n mod sample_rate =? 0); [|apply IH].
  cbv zeta. destruct prev as [p|]; [|apply IH].
  destruct (states_significantly_different d p (get_frame_bar_state d f));
    [|apply IH].
  destruct (PrimFloat.eqb fps zero); [reflexivity | apply IH].
Qed.

(** With a frame rate of 0 the fold fails at the first significant change. *)
Lemma fold_visited_fps_zero (fps : float) (v : list (Z * BarState)) :
  PrimFloat.eqb fps zero = true ->
  forall cuts prev,
    fold_visited d fps v cuts prev
    = match changes d prev v with
      | [] => Ok cuts
      | _ :: _ => Err ZeroDivisionError
      end.
Proof.
  intros Hf. induction v as [|[n cur] v IH]; intros cuts prev; [reflexivity|].
  cbn [fold_visited changes]. unfold truediv. rewrite Hf.
  destruct prev as [p|]; [|cbn [bind]; apply IH].
  destruct (states_significantly_different d p cur);
    [reflexivity | cbn [bind]; apply IH].
Qed.

End MoreOnRuns.

Lemma get_frame_bar_state_params `{CV : cv2} (d1 d2 : BlackBarDetector)
    (frame : ndarray) :
  black_threshold d1 = black_threshold d2 ->
  min_bar_size d1 = min_bar_size d2 ->
  get_frame_bar_state d1 frame = get_frame_bar_state d2 frame.
Proof.
  intros Ht Hm.
  unfold get_frame_bar_state, detect_vertical_bars, detect_horizontal_bars,
    min_size_filter.
  now rewrite Ht, Hm.
Qed.

Lemma numbered_params `{CV : cv2} (d1 d2 : BlackBarDetector)
    (frames : list ndarray) :
  black_threshold d1 = black_threshold d2 ->
  min_bar_size d1 = min_bar_size d2 ->
  forall n, numbered d1 n frames = numbered d2 n frames.
Proof.
  intros Ht Hm. induction frames as [|f frames IH]; intros n; [reflexivity|].
  cbn [numbered]. now rewrite IH, (get_frame_bar_state_params d1 d2 f Ht Hm).
Qed.

(** A detector that finds fewer pairs different finds fewer changes. *)
Lemma changes_incl (d1 d2 : BlackBarDetector) (v : list (Z * BarState)) :
  (forall p c, states_significantly_different d2 p c = true ->
               states_significantly_different d1 p c = true) ->
  forall prev t, In t (changes d2 prev v) -> In t (changes d1 prev v).
Proof.
  intros H. induction v as [|[n cur] v IH]; intros prev t Ht; [easy|].
  cbn [changes] in *. destruct prev as [p|]; [|now apply IH].
  destruct (states_significantly_different d2 p cur) eqn:H2.
  - rewrite (H p cur H2). destruct Ht as [<- | Ht]; [now left|].
    right. now apply IH.
  - destruct (states_significantly_different d1 p cur);
      [right|]; now apply IH.
Qed.

Lemma tolerance_mono (d1 d2 : BlackBarDetector) (p c : BarState) :
  tolerance_pixels d1 <= tolerance_pixels d2 ->
  states_significantly_different d2 p c = true ->
  states_significantly_different d1 p c = true.
Proof.
  intros Htol. rewrite !significantly_different_iff.
  unfold exceeds_tolerance. lia.
Qed.

Section AnalysisExtras.
Context `{CV : cv2}.

(** X8: every cut event returned by [analyze_video] has a before and an
    after state that are significantly different (hence unequal when the
    tolerance is not negative), and its timestamp is its frame number
    divided by the frame rate, which is then not zero. *)
Theorem cut_event_invariant (path : string) (d : BlackBarDetector)
    (sample_rate : Z) (cuts : list CutEvent) :
  analyze_video path d sample_rate = Ok cuts ->
  let fps := CAP_PROP_FPS (VideoCapture path) in
  forall c, In c cuts ->
    states_significantly_different d (before_state c) (after_state c) = true
    /\ (0 <= tolerance_pixels d -> before_state c <> after_state c)
    /\ PrimFloat.eqb fps zero = false
    /\ timestamp c = PrimFloat.div (float_of_int (frame_number c)) fps.
Proof.
  unfold analyze_video. destruct (isOpened (VideoCapture path)); cbn [negb];
    [|discriminate].
  intros Hrun. cbv zeta. apply Forall_forall.
  eapply (read_loop_all d _ sample_rate); [|exact Hrun|constructor].
  intros k p c Hs Hf. cbn. repeat split; try assumption.
  intros Htol ->. rewrite same_state_not_different in Hs by exact Htol.
  discriminate.
Qed.

(** The frame numbers of the cuts of a run: strictly increasing, above 0,
    below the number of frames read, multiples of the sample rate. *)
Lemma cut_numbers_range (path : string) (d : BlackBarDetector)
    (sample_rate : Z) (cuts : list CutEvent) :
  analyze_video path d sample_rate = Ok cuts ->
  StronglySorted Z.lt (map frame_number cuts)
  /\ forall c, In c cuts ->
       0 < frame_number c
           < Z.of_nat (List.length (cap_frames (VideoCapture path)))
       /\ frame_number c mod sample_rate = 0.
Proof.
  intros Hrun. apply analyze_video_opened in Hrun as [_ Hcuts].
  set (frames := cap_frames (VideoCapture path)) in *.
  set (v := visited d sample_rate frames) in *.
  assert (Hinc : StronglySorted Z.lt (map fst v)) by apply visited_increasing.
  assert (Hv : forall q, In q v ->
             0 <= fst q < Z.of_nat (List.length frames)
             /\ fst q mod sample_rate = 0).
  { intros q Hq. apply filter_In in Hq as [Hq Hm]. apply Z.eqb_eq in Hm.
    pose proof (numbered_lower d _ _ _ Hq).
    pose proof (numbered_upper d _ _ _ Hq). lia. }
  split.
  - replace (map frame_number cuts)
      with (map (fun t => fst (fst t)) (map event_core cuts))
      by (rewrite map_map; reflexivity).
    rewrite Hcuts. apply changes_increasing, Hinc.
  - intros c Hc. apply (in_map event_core) in Hc. rewrite Hcuts in Hc.
    apply in_changes_iff in Hc as (j & Hj & _ & Hp).
    destruct j as [|j]; [discriminate|]. destruct Hp as (m & Hm).
    pose proof (Hv _ (nth_error_In _ _ Hj)) as [Hn Hmod].
    pose proof (Hv _ (nth_error_In _ _ Hm)) as [Hm0 _]. cbn [fst] in *.
    assert (m < frame_number c).
    { apply (increasing_nth (map fst v) Hinc j (S j)); [lia| |];
        rewrite nth_error_map; [rewrite Hm | rewrite Hj]; reflexivity. }
    split; [lia | exact Hmod].
Qed.


(** X10: with a sample rate of 0, [analyze_video] on a source that opens
    raises ZeroDivisionError as soon as there is a frame to read, and
    returns no cuts when there is none. *)
Theorem sample_rate_zero (path : string) (d : BlackBarDetector) :
  isOpened (VideoCapture path) = true ->
  analyze_video path d 0
  = match cap_frames (VideoCapture path) with
    | [] => Ok []
    | _ :: _ => Err ZeroDivisionError
    end.
Proof.
  intros Hopen. unfold analyze_video. rewrite Hopen. cbn [negb].
  now destruct (cap_frames (VideoCapture path)).
Qed.

(** X11: with a frame rate of 0 (and a sample rate that is not 0),
    [analyze_video] on a source that opens raises ZeroDivisionError when
    some visited frame differs significantly from the visited frame before
    it, and returns no cuts otherwise. *)
Theorem frame_rate_zero (path : string) (d : BlackBarDetector)
    (sample_rate : Z) :
  let cap := VideoCapture path in
  let v := visited d sample_rate (cap_frames cap) in
  let change :=
    exists j m p n c,
      nth_error v j = Some (m, p) /\ nth_error v (S j) = Some (n, c)
      /\ exceeds_tolerance (tolerance_pixels d) p c in
  isOpened cap = true -> sample_rate <> 0 ->
  PrimFloat.eqb (CAP_PROP_FPS cap) zero = true ->
  (change -> analyze_video path d sample_rate = Err ZeroDivisionError)
  /\ (~ change -> analyze_video path d sample_rate = Ok []).
Proof.
  intros cap v change Hopen Hsr Hf.
  assert (E : analyze_video path d sample_rate
              = match changes d None v with
                | [] => Ok []
                | _ :: _ => Err ZeroDivisionError
                end).
  { unfold analyze_video. fold cap. rewrite Hopen. cbn [negb].
    rewrite (read_loop_fold d sample_rate _ _ Hsr).
    now apply fold_visited_fps_zero. }
  assert (Hiff : change <-> changes d None v <> []).
  { split.
    - intros (j & m & p & n & c & Hm & Hn & Hex) Hnil.
      assert (Hin : In (n, p, c) (changes d None v)).
      { apply in_changes_iff. exists (S j).
        repeat split; [exact Hn | now apply significantly_different_iff|].
        now exists m. }
      rewrite Hnil in Hin. exact Hin.
    - intros Hne. destruct (changes d None v) as [|[[n p] c] l] eqn:Hch;
        [congruence|].
      assert (Hin : In (n, p, c) (changes d None v))
        by (rewrite Hch; now left).
      apply in_changes_iff in Hin as (j & Hj & Hs & Hp).
      destruct j as [|j]; [discriminate|]. destruct Hp as (m & Hm).
      exists j, m, p, n, c. repeat split; try assumption.
      now apply significantly_different_iff. }
  rewrite E. split.
  - intros Hc. apply Hiff in Hc. now destruct (changes d None v).
  - intros Hc. destruct (changes d None v) as [|t l] eqn:Hch; [reflexivity|].
    exfalso. apply Hc, Hiff. discriminate.
Qed.

(** X12: a negative sample rate gives the result of its absolute value:
    [analyze_video] with [-sample_rate] equals [analyze_video] with
    [sample_rate]. *)
Theorem negative_sample_rate (path : string) (d : BlackBarDetector)
    (sample_rate : Z) :
  analyze_video path d (- sample_rate) = analyze_video path d sample_rate.
Proof.
  unfold analyze_video. destruct (negb (isOpened (VideoCapture path)));
    [reflexivity | apply read_loop_opp].
Qed.

(** X13: raising [tolerance_pixels] (with the same black threshold and
    minimum bar size) never adds a cut: every cut event of the run with the
    higher tolerance is a cut event of the run with the lower one. *)
Theorem higher_tolerance_fewer_cuts (path : string) (d1 d2 : BlackBarDetector)
    (sample_rate : Z) (cuts1 cuts2 : list CutEvent) :
  black_threshold d1 = black_threshold d2 ->
  min_bar_size d1 = min_bar_size d2 ->
  tolerance_pixels d1 <= tolerance_pixels d2 ->
  analyze_video path d1 sample_rate = Ok cuts1 ->
  analyze_video path d2 sample_rate = Ok cuts2 ->
  incl cuts2 cuts1.
Proof.
  intros Ht Hm Htol Hrun1 Hrun2 c2 Hc2.
  assert (Hts : forall d cuts c,
            analyze_video path d sample_rate = Ok cuts -> In c cuts ->
            timestamp c
            = PrimFloat.div (float_of_int (frame_number c))
                            (CAP_PROP_FPS (VideoCapture path))).
  { intros d cuts c Hrun. revert c. apply Forall_forall.
    unfold analyze_video in Hrun.
    destruct (isOpened (VideoCapture path)); cbn [negb] in Hrun;
      [|discriminate].
    eapply (read_loop_all d); [|exact Hrun|constructor]. reflexivity. }
  pose proof (Hts d2 cuts2 c2 Hrun2 Hc2) as Hts2.
  specialize (Hts d1 cuts1).
  apply analyze_video_opened in Hrun1 as Hcore1. destruct Hcore1 as [_ Hcore1].
  apply analyze_video_opened in Hrun2 as [_ Hcore2].
  unfold visited in Hcore1, Hcore2.
  rewrite <- (numbered_params d1 d2 _ Ht Hm) in Hcore2.
  apply (in_map event_core) in Hc2. rewrite Hcore2 in Hc2.
  apply (changes_incl d1 d2) in Hc2;
    [|intros p c; now apply tolerance_mono].
  rewrite <- Hcore1 in Hc2. apply in_map_iff in Hc2 as (c1 & Hcore & Hc1).
  specialize (Hts c1 Hrun1 Hc1).
  assert (c1 = c2); [|now subst].
  destruct c1, c2. unfold event_core in Hcore. cbn in *. congruence.
Qed.

(** X14: on a source that opens and with a sample rate that is not 0,
    [analyze_video] is the fold over the visited frames (those whose number
    is a multiple of the sample rate, with their measured states) that
    carries the cut list and the previous state; so it depends on the video
    only through its frame rate and the states of the visited frames. *)
Theorem analyze_video_is_fold (path : string) (d : BlackBarDetector)
    (sample_rate : Z) :
  let cap := VideoCapture path in
  isOpened cap = true -> sample_rate <> 0 ->
  analyze_video path d sample_rate
  = fold_visited d (CAP_PROP_FPS cap)
                 (visited d sample_rate (cap_frames cap)) [] None.
Proof.
  intros cap Hopen Hsr. unfold analyze_video. fold cap. rewrite Hopen.
  cbn [negb]. now apply read_loop_fold.
Qed.

(** X15: the analysis works from the start of the video onward: when a
    second video starts with the frames of a first one and has its frame
    rate, every successful analysis of the second starts with the cut list
    of the first. *)
Theorem analysis_of_prefix (path1 path2 : string) (d : BlackBarDetector)
    (sample_rate : Z) (more : list ndarray) (cuts2 : list CutEvent) :
  isOpened (VideoCapture path1) = true ->
  CAP_PROP_FPS (VideoCapture path2) = CAP_PROP_FPS (VideoCapture path1) ->
  cap_frames (VideoCapture path2) = cap_frames (VideoCapture path1) ++ more ->
  analyze_video path2 d sample_rate = Ok cuts2 ->
  exists cuts1 rest,
    analyze_video path1 d sample_rate = Ok cuts1 /\ cuts2 = cuts1 ++ rest.
Proof.
  intros Hopen Hfps Hframes. unfold analyze_video. rewrite Hopen.
  destruct (isOpened (VideoCapture path2)); cbn [negb]; [|discriminate].
  rewrite Hfps, Hframes. apply read_loop_prefix.
Qed.

End AnalysisExtras.

(** The cut of the changing clip satisfies the invariant. *)
Lemma cut_event_invariant_witness :
  let CV := example_cv2 changing_capture in
  exists cuts,
    analyze_video "clip.mp4" default_detector 1 = Ok cuts
    /\ Forall (fun c => before_state c <> after_state c) cuts.
Proof.
  cbv zeta.
  destruct (@analyze_video (example_cv2 changing_capture)
              "clip.mp4" default_detector 1) as [cuts|e] eqn:E;
    [|vm_compute in E; discriminate].
  exists cuts. split; [reflexivity|]. apply Forall_forall. intros c Hc.
  apply (@cut_event_invariant (example_cv2 changing_capture)
           "clip.mp4"%string default_detector 1 cuts E c Hc).
  cbn. lia.
Defined.


(** Sample rate 0 on the changing clip. *)
Lemma sample_rate_zero_witness :
  let CV := example_cv2 changing_capture in
  analyze_video "clip.mp4" default_detector 0 = Err ZeroDivisionError.
Proof.
  exact (@sample_rate_zero (example_cv2 changing_capture)
           "clip.mp4"%string default_detector eq_refl).
Defined.

(** Frame rate 0 on a clip that changes at frame 2. *)
Lemma frame_rate_zero_witness :
  let CV := example_cv2 zero_fps_capture in
  analyze_video "clip.mp4" default_detector 1 = Err ZeroDivisionError.
Proof.
  cbv zeta.
  apply (proj1 (@frame_rate_zero (example_cv2 zero_fps_capture)
                  "clip.mp4"%string default_detector 1
                  eq_refl ltac:(discriminate) eq_refl)).
  exists 1%nat, 1, (mkBarState 12 0 0 0), 2, (mkBarState 0 0 0 0).
  repeat split. left. cbn. lia.
Defined.

(** Tolerances 5 and 8 on the changing clip. *)
Lemma higher_tolerance_fewer_cuts_witness :
  let CV := example_cv2 changing_capture in
  exists cuts1 cuts2,
    analyze_video "clip.mp4" default_detector 1 = Ok cuts1
    /\ analyze_video "clip.mp4" (mkDetector 10 10 8) 1 = Ok cuts2
    /\ incl cuts2 cuts1.
Proof.
  cbv zeta.
  destruct (@analyze_video (example_cv2 changing_capture)
              "clip.mp4" default_detector 1) as [cuts1|e] eqn:E1;
    [|vm_compute in E1; discriminate].
  destruct (@analyze_video (example_cv2 changing_capture)
              "clip.mp4" (mkDetector 10 10 8) 1) as [cuts2|e] eqn:E2;
    [|vm_compute in E2; discriminate].
  exists cuts1, cuts2. repeat split.
  apply (@higher_tolerance_fewer_cuts (example_cv2 changing_capture)
           "clip.mp4"%string default_detector (mkDetector 10 10 8) 1
           cuts1 cuts2 eq_refl eq_refl ltac:(cbn; lia) E1 E2).
Defined.

(** The changing clip analysed as a fold. *)
Lemma analyze_video_is_fold_witness :
  let CV := example_cv2 changing_capture in
  analyze_video "clip.mp4" default_detector 1
  = fold_visited default_detector 30
      (visited default_detector 1 (cap_frames changing_capture)) [] None.
Proof.
  exact (@analyze_video_is_fold (example_cv2 changing_capture)
           "clip.mp4"%string default_detector 1 eq_refl ltac:(discriminate)).
Defined.

(** The changing clip starts with the short clip. *)
Lemma analysis_of_prefix_witness :
  let CV := two_clips_cv2 in
  exists cuts2 cuts1 rest,
    analyze_video "clip.mp4" default_detector 1 = Ok cuts2
    /\ analyze_video "short.mp4" default_detector 1 = Ok cuts1
    /\ cuts2 = cuts1 ++ rest.
Proof.
  cbv zeta.
  destruct (@analyze_video two_clips_cv2 "clip.mp4" default_detector 1)
    as [cuts2|e] eqn:E; [|vm_compute in E; discriminate].
  destruct (@analysis_of_prefix two_clips_cv2 "short.mp4"%string
              "clip.mp4"%string default_detector 1 [bright_frame] cuts2
              eq_refl eq_refl eq_refl E) as (cuts1 & rest & H1 & H2).
  now exists cuts2, cuts1, rest.
Defined.

(** ** utils.py: segment names *)

(** A printed integer reads back as itself. *)
Lemma decode_str_int (n : Z) : decode_int (str_int n) = Some n.
Proof.
  unfold decode_int, str_int. rewrite NilZero.isi.
  - cbn [option_map]. now rewrite DecimalZ.of_to.
  - destruct n as [|p|p]; cbn; try discriminate.
    intros H. injection H as H.
    exact (DecimalPos.Unsigned.to_uint_nonnil p H).
  - destruct n as [|p|p]; cbn; try discriminate.
    intros H. injection H as H.
    exact (DecimalPos.Unsigned.to_uint_nonnil p H).
Qed.

(** So does an integer printed with [:02d]. *)
Lemma decode_fmt_02d (n : Z) : decode_int (fmt_02d n) = Some n.
Proof.
  unfold fmt_02d.
  destruct (Z.leb_spec 0 n); cbn [andb]; [|apply decode_str_int].
  destruct (Z.ltb_spec n 10); [|apply decode_str_int].
  assert (Hk : (Z.to_nat n < 10)%nat) by lia.
  rewrite <- (Z2Nat.id n) by assumption.
  generalize dependent (Z.to_nat n). intros k Hk.
  do 10 (destruct k as [|k]; [reflexivity|]). lia.
Qed.

Lemma ordinal_name_inj (k1 k2 : nat) :
  ordinal_name k1 = ordinal_name k2 -> k1 = k2.
Proof.
  unfold ordinal_name. cbn [String.append]. intros H.
  injection H as H. apply (f_equal decode_int) in H.
  rewrite !decode_fmt_02d in H. injection H as H. lia.
Qed.

Lemma NoDup_map_inj {A B : Type} (f : A -> B) (l : list A) :
  (forall x y, f x = f y -> x = y) -> NoDup l -> NoDup (map f l).
Proof.
  intros Hinj. induction 1 as [|x l Hx Hnd IH]; cbn; constructor; [|exact IH].
  intros Hin. apply in_map_iff in Hin as (y & E & Hy).
  apply Hinj in E. now subst.
Qed.

(** The loop names its segments by position, starting after the first. *)
Lemma segments_between_names (cuts : list CutEvent) :
  forall a : nat,
    map segment_name (segments_between cuts (Z.of_nat a))
    = map ordinal_name (seq (S a) (Nat.pred (List.length cuts))).
Proof.
  induction cuts as [|cut cuts IH]; intros a; [reflexivity|].
  destruct cuts as [|next cuts]; [reflexivity|].
  rewrite segments_between_step. cbn [map segment_name List.length Nat.pred seq].
  replace (Z.of_nat a + 1) with (Z.of_nat (S a)) by lia.
  rewrite IH. cbn [List.length Nat.pred]. f_equal.
  unfold ordinal_name. do 2 f_equal. lia.
Qed.

(** X16: the planned segments are named by position: the segment at position
    [k] (from 0) is "segment_" followed by [k + 1] printed with at least two
    digits; so no two segments of a plan have the same name. *)
Theorem segment_names_by_position (cuts : list CutEvent) (total_frames : Z) :
  let segs := split_video_by_cuts_segments cuts total_frames in
  map segment_name segs = map ordinal_name (seq 0 (List.length segs))
  /\ NoDup (map segment_name segs).
Proof.
  intros segs.
  assert (E : map segment_name segs
              = map ordinal_name (seq 0 (List.length segs))).
  { subst segs. destruct cuts as [|first rest]; [reflexivity|].
    unfold split_video_by_cuts_segments.
    set (front := [mkSegment 0 (frame_number first) "segment_01"
                             (Some (before_state first))]
                  ++ segments_between (first :: rest) 0).
    assert (Hfront : map segment_name front
                     = map ordinal_name (seq 0 (S (List.length rest)))).
    { unfold front. cbn [app map segment_name seq]. f_equal.
      apply (segments_between_names (first :: rest) 0). }
    assert (Hlen : List.length front = S (List.length rest)).
    { apply (f_equal (@List.length _)) in Hfront.
      now rewrite !length_map, length_seq in Hfront. }
    destruct (frame_number (last (first :: rest) first) <? total_frames).
    - rewrite map_app, length_app, Hfront, Hlen. cbn [List.length map].
      replace (S (List.length rest) + 1)%nat with (S (S (List.length rest)))
        by lia.
      rewrite (seq_S (S (List.length rest))), map_app. cbn [Nat.add map].
      f_equal.
    - now rewrite Hlen. }
  split; [exact E|]. rewrite E.
  apply NoDup_map_inj; [apply ordinal_name_inj | apply seq_NoDup].
Qed.

(** ** Analysing, planning and splitting together *)

(** A plan whose last cut is not beyond the end leads from 0 to the end. *)
Lemma planned_segments_linked (cuts : list CutEvent) (total_frames : Z) :
  last_cut_within cuts total_frames ->
  linked 0 (split_video_by_cuts_segments cuts total_frames) total_frames
  /\ split_video_by_cuts_segments cuts total_frames <> [].
Proof.
  intros Hlast. destruct cuts as [|first cuts].
  - split; [now cbn | discriminate].
  - pose proof (Hlast _ (last_rev_hd cuts first first)) as Hle.
    assert (Hfront : linked 0
              ([mkSegment 0 (frame_number first) "segment_01"
                          (Some (before_state first))]
               ++ segments_between (first :: cuts) 0)
              (frame_number (last (first :: cuts) first))).
    { apply (linked_app 0 (frame_number first)); [now cbn|].
      apply segments_between_linked. }
    unfold split_video_by_cuts_segments.
    destruct (Z.ltb_spec (frame_number (last (first :: cuts) first))
                         total_frames) as [Hlt | Hge].
    + split; [|discriminate].
      eapply linked_app; [exact Hfront | now cbn].
    + split; [|discriminate].
      replace total_frames with (frame_number (last (first :: cuts) first))
        by lia.
      exact Hfront.
Qed.

Lemma segments_between_strict (cuts : list CutEvent) :
  forall i,
    StronglySorted Z.lt (map frame_number cuts) ->
    Forall (fun s => start_frame s < end_frame s) (segments_between cuts i).
Proof.
  induction cuts as [|cut cuts IH]; intros i Hs; [constructor|].
  destruct cuts as [|next cuts]; [constructor|].
  rewrite segments_between_step. cbn [map] in Hs.
  inversion Hs as [|? ? Hs' Hall]; subst. constructor.
  - cbn. inversion Hall; subst. assumption.
  - apply IH. exact Hs'.
Qed.

Lemma last_in {A : Type} (l : list A) (x dflt : A) :
  In (last (x :: l) dflt) (x :: l).
Proof.
  revert x. induction l as [|y l IH]; intros x; [now left|].
  right. apply (IH y).
Qed.

(** When the cut frames increase strictly inside [(0, total_frames)], every
    planned segment has at least one frame and the plan has one segment more
    than there are cuts. *)
Lemma planned_segments_strict (cuts : list CutEvent) (total_frames : Z) :
  0 < total_frames ->
  StronglySorted Z.lt (map frame_number cuts) ->
  (forall c, In c cuts -> 0 < frame_number c < total_frames) ->
  Forall (fun s => start_frame s < end_frame s)
         (split_video_by_cuts_segments cuts total_frames)
  /\ List.length (split_video_by_cuts_segments cuts total_frames)
     = S (List.length cuts).
Proof.
  intros Htotal Hs Hin. destruct cuts as [|first cuts].
  - split; [|reflexivity]. cbn. constructor; [cbn; lia | constructor].
  - unfold split_video_by_cuts_segments.
    pose proof (Hin _ (last_in cuts first first)) as Hlast.
    destruct (Z.ltb_spec (frame_number (last (first :: cuts) first))
                         total_frames) as [Hlt | Hge]; [|lia].
    split.
    + apply Forall_app. split; [apply Forall_app; split|].
      * constructor; [|constructor]. cbn.
        apply (Hin first). now left.
      * now apply segments_between_strict.
      * constructor; [|constructor]. cbn [start_frame end_frame]. lia.
    + rewrite !length_app, segments_between_length. cbn. lia.
Qed.

Section Together.
Context `{CV : cv2}.

(** X17: when the capture reports a positive frame count that is at least
    the number of frames it delivers, the segments planned from the cuts of
    [analyze_video] (as [analyze_and_split_video] plans them) partition
    [[0, total_frames)], each of them holds at least one frame, and there is
    one segment more than there are cuts. *)
Theorem analyzed_segments_partition (path : string) (d : BlackBarDetector)
    (sample_rate : Z) (segs : list Segment) :
  let cap := VideoCapture path in
  let total_frames := CAP_PROP_FRAME_COUNT cap in
  Z.of_nat (List.length (cap_frames cap)) <= total_frames ->
  0 < total_frames ->
  analyze_and_split_video_segments path d sample_rate = Ok segs ->
  partitions segs total_frames
  /\ Forall (fun s => start_frame s < end_frame s) segs
  /\ exists cuts,
       analyze_video path d sample_rate = Ok cuts
       /\ List.length segs = S (List.length cuts).
Proof.
  intros cap total_frames Hcount Hpos. unfold analyze_and_split_video_segments.
  destruct (analyze_video path d sample_rate) as [cuts|e] eqn:Hrun;
    cbn [bind]; [|discriminate].
  intros Hsegs. injection Hsegs as <-. fold cap total_frames.
  destruct (cut_numbers_range path d sample_rate cuts Hrun)
    as [Hsorted Hrange].
  fold cap in Hrange.
  assert (Hin : forall c, In c cuts -> 0 < frame_number c < total_frames).
  { intros c Hc. destruct (Hrange c Hc). lia. }
  assert (Hlast : last_cut_within cuts total_frames).
  { intros c Hc. assert (Hc' : In c cuts); [|specialize (Hin c Hc'); lia].
    apply in_rev. destruct (rev cuts); [discriminate|].
    cbn in Hc. injection Hc as <-. now left. }
  destruct (planned_segments_linked cuts total_frames Hlast) as [Hl Hne].
  destruct (planned_segments_strict cuts total_frames Hpos Hsorted Hin)
    as [Hstrict Hlen].
  split; [now apply linked_partitions|]. split; [exact Hstrict|].
  now exists cuts.
Qed.

End Together.

(** The changing clip, reported as three frames long, is planned as two
    segments. *)
Lemma analyzed_segments_partition_witness :
  let CV := example_cv2 changing_capture in
  exists segs,
    analyze_and_split_video_segments "clip.mp4" default_detector 1 = Ok segs
    /\ partitions segs 3.
Proof.
  cbv zeta.
  destruct (@analyze_and_split_video_segments (example_cv2 changing_capture)
              "clip.mp4" default_detector 1) as [segs|e] eqn:E;
    [|vm_compute in E; discriminate].
  exists segs. split; [reflexivity|].
  apply (@analyzed_segments_partition (example_cv2 changing_capture)
           "clip.mp4"%string default_detector 1 segs);
    [cbn; lia | cbn; lia | exact E].
Defined.

(** ** Measuring and cropping together *)

(** The crop arguments are empty, or they carry the rectangle left after
    removing bars of which one is positive, at least 64 wide and high. *)
Lemma crop_arguments_cases (s : BarState) (width height : Z) :
  let cw := width - left_width s - right_width s in
  let ch := height - top_height s - bottom_height s in
  crop_arguments (Some s) width height = []
  \/ (crop_arguments (Some s) width height
      = ["-vf"%string;
         render_crop (mkCrop (left_width s) (top_height s) cw ch)]
      /\ (left_width s > 0 \/ right_width s > 0
          \/ top_height s > 0 \/ bottom_height s > 0)
      /\ cw >= 64 /\ ch >= 64).
Proof.
  intros cw ch. unfold crop_arguments.
  destruct ((width >? 0) && (height >? 0)); [|now left].
  destruct (crop_filter_cases s width height) as [(Hb & Hw & Hh & E) | (_ & E)];
    cbv zeta; rewrite E.
  - right. rewrite render_crop_nonempty. now repeat split.
  - now left.
Qed.

Section MeasureAndCrop.
Context `{CV : cv2}.

Lemma measured_nonneg (d : BlackBarDetector) (frame : ndarray) :
  nonneg_state (get_frame_bar_state d frame).
Proof.
  rewrite bar_state_lengths. unfold nonneg_state.
  cbn [left_width right_width top_height bottom_height].
  repeat split; apply min_size_filter_nonneg, Nat2Z.is_nonneg.
Qed.

Lemma fully_black_state (d : BlackBarDetector) (frame : ndarray) :
  fully_black d (to_gray frame) ->
  let W := Z.of_nat (frame_width frame) in
  let H := Z.of_nat (frame_height frame) in
  get_frame_bar_state d frame
  = mkBarState (min_size_filter d W) (min_size_filter d W)
               (min_size_filter d H) (min_size_filter d H).
Proof.
  rewrite <- to_gray_rows, <- to_gray_cols. intros [Hcols Hrows] W H.
  unfold get_frame_bar_state, detect_vertical_bars, detect_horizontal_bars.
  rewrite scan_up_all_dark, scan_down_all_dark, scan_up_all_dark,
    scan_down_all_dark;
    try (intros i Hi; apply mean_le_not_gt);
    try (apply Hcols; exact Hi); try (apply Hrows; exact Hi).
  reflexivity.
Qed.

(** X18: for the state measured on a frame and that frame's width and
    height, the crop computation gives no crop or a rectangle that lies
    inside the frame (x >= 0, y >= 0, x + width <= frame width,
    y + height <= frame height) and is at least 64 wide and 64 high. *)
Theorem measured_crop_inside_frame (d : BlackBarDetector) (frame : ndarray) :
  let s := get_frame_bar_state d frame in
  let W := Z.of_nat (frame_width frame) in
  let H := Z.of_nat (frame_height frame) in
  crop_arguments (Some s) W H = []
  \/ exists r,
       crop_arguments (Some s) W H = ["-vf"%string; render_crop r]
       /\ r = mkCrop (left_width s) (top_height s)
                     (W - left_width s - right_width s)
                     (H - top_height s - bottom_height s)
       /\ 0 <= crop_x r /\ 0 <= crop_y r
       /\ crop_x r + crop_w r <= W /\ crop_y r + crop_h r <= H
       /\ 64 <= crop_w r /\ 64 <= crop_h r.
Proof.
  intros s W H. pose proof (measured_nonneg d frame) as Hnn. fold s in Hnn.
  unfold nonneg_state in Hnn.
  destruct (crop_arguments_cases s W H) as [E | (E & _ & Hw & Hh)];
    [now left|].
  right. eexists. split; [exact E|]. split; [reflexivity|].
  cbn [crop_x crop_y crop_w crop_h]. lia.
Qed.

(** X19: a fully black frame is never cropped by its own measured state:
    its bars are filtered to 0 or cover the whole dimension, and in both
    cases the crop computation gives no crop. *)
Theorem fully_black_never_cropped (d : BlackBarDetector) (frame : ndarray) :
  fully_black d (to_gray frame) ->
  crop_arguments (Some (get_frame_bar_state d frame))
                 (Z.of_nat (frame_width frame))
                 (Z.of_nat (frame_height frame)) = [].
Proof.
  intros Hblack. rewrite (fully_black_state d frame Hblack).
  set (W := Z.of_nat (frame_width frame)).
  set (H := Z.of_nat (frame_height frame)).
  assert (HW : 0 <= W) by apply Nat2Z.is_nonneg.
  assert (HH : 0 <= H) by apply Nat2Z.is_nonneg.
  destruct (crop_arguments_cases
              (mkBarState (min_size_filter d W) (min_size_filter d W)
                          (min_size_filter d H) (min_size_filter d H)) W H)
    as [E | (_ & Hb & Hw & Hh)]; [exact E|].
  exfalso. cbn [left_width right_width top_height bottom_height] in *.
  destruct (min_size_filter_cases d W) as [[_ EW] | [_ EW]];
    destruct (min_size_filter_cases d H) as [[_ EH] | [_ EH]];
    rewrite EW, EH in *; lia.
Qed.

End MeasureAndCrop.

(** A fully black 100x100 frame is not cropped. *)
Lemma fully_black_never_cropped_witness :
  let CV := example_cv2 closed_capture in
  crop_arguments
    (Some (get_frame_bar_state default_detector
             (Array2D (black_image 100 100)))) 100 100 = [].
Proof.
  cbv zeta.
  apply (@fully_black_never_cropped (example_cv2 closed_capture)
           default_detector (Array2D (black_image 100 100))).
  split; intros i Hi; reflexivity.
Defined.

(** ** utils.py: the OpenCV fallback *)

Lemma skipn_nth {A : Type} (l : list A) (n : nat) (x : A) :
  nth_error l n = Some x -> skipn n l = x :: skipn (S n) l.
Proof.
  revert n. induction l as [|y l IH]; intros n H.
  - destruct n; discriminate.
  - destruct n as [|n]; cbn in H.
    + now injection H as ->.
    + cbn [skipn]. rewrite (IH n H). reflexivity.
Qed.

Lemma skipn_past {A : Type} (l : list A) (n : nat) :
  nth_error l n = None -> skipn n l = [].
Proof. intros H. apply skipn_all2. now apply nth_error_None. Qed.

Lemma firstn_add {A : Type} (m k : nat) (l : list A) :
  firstn (m + k) l = firstn m l ++ firstn k (skipn m l).
Proof.
  revert l. induction m as [|m IH]; intros l; [reflexivity|].
  destruct l as [|x l]; [now rewrite !firstn_nil|].
  cbn [Nat.add firstn skipn app]. now rewrite IH.
Qed.

(** The writing loop appends the next frames of the video, as many as it has
    iterations and as there are frames left. *)
Lemma write_loop_slice (cap : Capture) (iterations : nat) :
  forall pos written,
    write_loop cap iterations pos written
    = written ++ firstn iterations (skipn pos (cap_frames cap)).
Proof.
  induction iterations as [|k IH]; intros pos written.
  - cbn. now rewrite app_nil_r.
  - cbn [write_loop]. unfold cap_read.
    destruct (nth_error (cap_frames cap) pos) as [frame|] eqn:Hread.
    + rewrite IH, (skipn_nth _ _ _ Hread). cbn [firstn].
      now rewrite <- app_assoc.
    + rewrite (skipn_past _ _ Hread). now rewrite firstn_nil, app_nil_r.
Qed.

Lemma linked_le (a b : Z) (segs : list Segment) :
  linked a segs b ->
  Forall (fun s => start_frame s <= end_frame s) segs -> a <= b.
Proof.
  revert a. induction segs as [|s segs IH]; intros a Hl Hord.
  - cbn in Hl. lia.
  - cbn in Hl. destruct Hl as [Hs Hl]. inversion Hord; subst.
    specialize (IH _ Hl ltac:(assumption)). lia.
Qed.

Lemma sorted_le_bounds (l : list Z) (total : Z) :
  StronglySorted Z.lt l -> (forall x, In x l -> 0 < x < total) -> 0 <= total ->
  StronglySorted Z.le (0 :: l ++ [total]).
Proof.
  intros Hs Hin Htotal. constructor.
  - induction Hs as [|x l Hs IH Hall]; cbn.
    + constructor; constructor.
    + constructor.
      * apply IH. intros y Hy. apply Hin. now right.
      * rewrite Forall_forall in *. intros y Hy.
        apply in_app_or in Hy as [Hy | [<- | []]].
        -- specialize (Hall y Hy). lia.
        -- specialize (Hin x (or_introl eq_refl)). lia.
  - rewrite Forall_forall. intros y Hy.
    apply in_app_or in Hy as [Hy | [<- | []]]; [|lia].
    specialize (Hin y Hy). lia.
Qed.

Lemma sorted_below_last (l : list Z) (t : Z) :
  StronglySorted Z.le (l ++ [t]) -> forall x, In x l -> x <= t.
Proof.
  induction l as [|y l IH]; intros Hs x Hx; [easy|].
  cbn in Hs. inversion Hs as [|? ? Hs' Hall]; subst.
  destruct Hx as [<- | Hx]; [|now apply IH].
  rewrite Forall_forall in Hall. apply Hall, in_or_app. right. now left.
Qed.

(** Cuts in order give a plan whose segments do not end before they start
    and whose last cut is within the video. *)
Lemma planned_segments_ordered (cuts : list CutEvent) (total_frames : Z) :
  cuts_in_order cuts total_frames ->
  last_cut_within cuts total_frames
  /\ Forall (fun s => start_frame s <= end_frame s)
            (split_video_by_cuts_segments cuts total_frames).
Proof.
  unfold cuts_in_order. intros Hord.
  inversion Hord as [|? ? Hs Hall]; subst.
  assert (Hlast : last_cut_within cuts total_frames).
  { intros c Hc.
    assert (Hin : In c cuts).
    { apply in_rev. destruct (rev cuts); [discriminate|].
      cbn in Hc. injection Hc as <-. now left. }
    apply (sorted_below_last (map frame_number cuts) total_frames Hs).
    now apply in_map. }
  split; [exact Hlast|].
  destruct cuts as [|first cuts].
  - cbn. constructor; [|constructor]. cbn. cbn in Hall. now inversion Hall.
  - pose proof (Hlast _ (last_rev_hd cuts first first)) as Hle.
    assert (Hfront : Forall (fun s => start_frame s <= end_frame s)
              ([mkSegment 0 (frame_number first) "segment_01"
                          (Some (before_state first))]
               ++ segments_between (first :: cuts) 0)).
    { apply Forall_app. split.
      - constructor; [|constructor]. cbn. cbn in Hall. now inversion Hall.
      - eapply segments_between_ordered, sorted_front, Hs. }
    unfold split_video_by_cuts_segments.
    destruct (frame_number (last (first :: cuts) first) <? total_frames);
      [|exact Hfront].
    apply Forall_app. split; [exact Hfront|].
    constructor; [|constructor]. cbn [start_frame end_frame]. exact Hle.
Qed.

Section Fallback.
Context `{SK : cv2_seek}.

Lemma split_with_opencv_slice (cap : Capture) (start_frame end_frame : Z) :
  0 <= start_frame ->
  _split_with_opencv cap start_frame end_frame
  = firstn (Z.to_nat (end_frame - start_frame))
           (skipn (Z.to_nat start_frame) (cap_frames cap)).
Proof.
  intros Hstart. unfold _split_with_opencv.
  now rewrite write_loop_slice, set_pos_frames_exact.
Qed.

(** Segments that lead from [a] to [b] without a gap write, one after the
    other, the frames from [a] up to [b]. *)
Lemma linked_concat (cap : Capture) (segs : list Segment) :
  forall a b,
    0 <= a -> linked a segs b ->
    Forall (fun s => start_frame s <= end_frame s) segs ->
    List.concat (map (fun seg =>
                   _split_with_opencv cap (start_frame seg) (end_frame seg))
                segs)
    = firstn (Z.to_nat (b - a)) (skipn (Z.to_nat a) (cap_frames cap)).
Proof.
  induction segs as [|s segs IH]; intros a b Ha Hl Hord.
  - cbn in Hl. subst b. now rewrite Z.sub_diag.
  - cbn in Hl. destruct Hl as [Hs Hl]. inversion Hord as [|? ? Hse Hord'];
      subst.
    pose proof (linked_le _ _ _ Hl Hord') as Heb.
    cbn [map List.concat].
    rewrite (split_with_opencv_slice cap _ _ Ha),
      (IH (end_frame s) b ltac:(lia) Hl Hord').
    replace (Z.to_nat (b - start_frame s))
      with (Z.to_nat (end_frame s - start_frame s)
            + Z.to_nat (b - end_frame s))%nat by lia.
    rewrite firstn_add, skipn_skipn. do 3 f_equal. lia.
Qed.

(** X20: [_split_with_opencv] from a non-negative start frame writes the
    frames numbered [start_frame] to [end_frame - 1] of the video, as far as
    they exist, in order; it writes nothing when [end_frame <= start_frame],
    and never more than [end_frame - start_frame] frames. *)
Theorem split_with_opencv_frames (cap : Capture) (start_frame end_frame : Z) :
  0 <= start_frame ->
  let written := _split_with_opencv cap start_frame end_frame in
  written = firstn (Z.to_nat (end_frame - start_frame))
                   (skipn (Z.to_nat start_frame) (cap_frames cap))
  /\ (forall i frame,
        nth_error written i = Some frame
        <-> (Z.of_nat i < end_frame - start_frame
             /\ nth_error (cap_frames cap) (Z.to_nat start_frame + i)
                = Some frame))
  /\ (end_frame <= start_frame -> written = [])
  /\ Z.of_nat (List.length written) <= Z.max 0 (end_frame - start_frame).
Proof.
  intros Hstart written. subst written.
  rewrite (split_with_opencv_slice cap _ _ Hstart).
  split; [reflexivity|]. split; [|split].
  - intros i frame. split.
    + intros H. assert (Hi : (i < Z.to_nat (end_frame - start_frame))%nat).
      { apply nth_error_Some_lt in H. rewrite length_firstn in H. lia. }
      rewrite nth_error_firstn in H.
      destruct (Nat.ltb_spec i (Z.to_nat (end_frame - start_frame))); [|lia].
      rewrite nth_error_skipn in H. split; [lia | exact H].
    + intros [Hi H]. rewrite nth_error_firstn.
      destruct (Nat.ltb_spec i (Z.to_nat (end_frame - start_frame))); [|lia].
      now rewrite nth_error_skipn.
  - intros Hle. replace (Z.to_nat (end_frame - start_frame)) with 0%nat by lia.
    reflexivity.
  - rewrite length_firstn. lia.
Qed.

End Fallback.

Section SplitWithFallback.
Context `{CV : cv2} `{SK : cv2_seek}.

(** With cuts in order, the fallback writes the first [total_frames] frames
    of the video, segment after segment. *)
Lemma fallback_outputs_concat (cap : Capture) (cuts : list CutEvent) :
  let total_frames := CAP_PROP_FRAME_COUNT cap in
  cuts_in_order cuts total_frames ->
  List.concat
    (map (fun seg => _split_with_opencv cap (start_frame seg) (end_frame seg))
         (split_video_by_cuts_segments cuts total_frames))
  = firstn (Z.to_nat total_frames) (cap_frames cap).
Proof.
  intros total_frames Hord.
  destruct (planned_segments_ordered cuts total_frames Hord) as [Hlast Hle].
  destruct (planned_segments_linked cuts total_frames Hlast) as [Hl _].
  rewrite (linked_concat cap _ 0 total_frames (Z.le_refl 0) Hl Hle).
  now rewrite Z.sub_0_r.
Qed.

(** X21: [split_video_by_cuts] with the OpenCV fallback fails with the error
    that names the path when the video does not open; when it opens and the
    cut frames lie in [[0, total_frames]] in non-decreasing order, it writes
    one file per planned segment, and the files one after the other hold
    exactly the first [total_frames] frames of the video: no frame is
    dropped or written twice. *)
Theorem split_video_by_cuts_opencv_frames (path : string)
    (cuts : list CutEvent) :
  let cap := VideoCapture path in
  let total_frames := CAP_PROP_FRAME_COUNT cap in
  (isOpened cap = false ->
   split_video_by_cuts_opencv path cuts
   = Err (ValueError ("Could not open video file: " ++ path)))
  /\ (isOpened cap = true -> cuts_in_order cuts total_frames ->
      exists files,
        split_video_by_cuts_opencv path cuts = Ok files
        /\ List.length files
           = List.length (split_video_by_cuts_segments cuts total_frames)
        /\ List.concat files
           = firstn (Z.to_nat total_frames) (cap_frames cap)).
Proof.
  intros cap total_frames. unfold split_video_by_cuts_opencv.
  fold cap total_frames. split.
  - now intros ->.
  - intros -> Hord. cbn [negb]. eexists. split; [reflexivity|].
    split; [apply length_map|]. now apply fallback_outputs_concat.
Qed.

(** X22: [analyze_and_split_video] with the OpenCV fallback returns whenever
    the video opens and neither the sample rate nor the frame rate is 0;
    and when the capture reports at least as many frames as it delivers,
    the files it writes hold, one after the other, exactly the frames of
    the video. *)
Theorem analyze_and_split_recovers_video (path : string)
    (d : BlackBarDetector) (sample_rate : Z) :
  let cap := VideoCapture path in
  (isOpened cap = true -> sample_rate <> 0 ->
   PrimFloat.eqb (CAP_PROP_FPS cap) zero = false ->
   exists cuts files,
     analyze_and_split_video_opencv path d sample_rate = Ok (cuts, files))
  /\ (Z.of_nat (List.length (cap_frames cap)) <= CAP_PROP_FRAME_COUNT cap ->
      forall cuts files,
        analyze_and_split_video_opencv path d sample_rate = Ok (cuts, files) ->
        analyze_video path d sample_rate = Ok cuts
        /\ List.concat files = cap_frames cap).
Proof.
  intros cap. unfold analyze_and_split_video_opencv. split.
  - intros Hopen Hsr Hfps.
    assert (Hrun : exists cuts, analyze_video path d sample_rate = Ok cuts).
    { unfold analyze_video. fold cap. rewrite Hopen. cbn [negb].
      now apply read_loop_returns. }
    destruct Hrun as [cuts ->]. cbn [bind].
    unfold split_video_by_cuts_opencv. fold cap. rewrite Hopen. cbn [negb bind].
    eauto.
  - intros Hcount cuts files.
    destruct (analyze_video path d sample_rate) as [cuts0|e] eqn:Hrun;
      cbn [bind]; [|discriminate].
    pose proof (analyze_video_opened _ _ _ _ Hrun) as [Hopen _].
    unfold split_video_by_cuts_opencv. fold cap in Hopen |- *.
    rewrite Hopen. cbn [negb bind]. intros H. injection H as <- <-.
    split; [reflexivity|].
    destruct (cut_numbers_range path d sample_rate cuts0 Hrun)
      as [Hsorted Hrange]. fold cap in Hrange.
    rewrite fallback_outputs_concat.
    + apply firstn_all2. lia.
    + unfold cuts_in_order. apply sorted_le_bounds; [exact Hsorted| |lia].
      intros x Hx. apply in_map_iff in Hx as (c & <- & Hc).
      destruct (Hrange c Hc). lia.
Qed.

End SplitWithFallback.

(** Frames 1 and 2 of the changing clip. *)
Lemma split_with_opencv_frames_witness :
  let SK := example_seek in
  _split_with_opencv changing_capture 1 3 = [pillarbox_frame; bright_frame].
Proof.
  cbv zeta.
  rewrite (proj1 (@split_with_opencv_frames example_seek changing_capture 1 3
                    ltac:(lia))).
  reflexivity.
Defined.

(** The changing clip split at frame 2 in two files. *)
Lemma split_video_by_cuts_opencv_frames_witness :
  let CV := example_cv2 changing_capture in
  let SK := example_seek in
  exists files,
    split_video_by_cuts_opencv "clip.mp4"
      [mkCutEvent 0.5 2 (mkBarState 12 0 0 0) (mkBarState 0 0 0 0)] = Ok files
    /\ List.concat files = cap_frames changing_capture.
Proof.
  cbv zeta.
  destruct (proj2 (@split_video_by_cuts_opencv_frames
                     (example_cv2 changing_capture) example_seek
                     "clip.mp4"%string
                     [mkCutEvent 0.5 2 (mkBarState 12 0 0 0)
                                 (mkBarState 0 0 0 0)])
                  eq_refl)
    as (files & E & _ & Hc).
  - unfold cuts_in_order. cbn. repeat constructor; lia.
  - exists files. split; [exact E | exact Hc].
Defined.

(** Analysing and splitting the changing clip gives back its three
    frames. *)
Lemma analyze_and_split_recovers_video_witness :
  let CV := example_cv2 changing_capture in
  let SK := example_seek in
  exists cuts files,
    analyze_and_split_video_opencv "clip.mp4" default_detector 1
    = Ok (cuts, files)
    /\ List.concat files = cap_frames changing_capture.
Proof.
  cbv zeta.
  pose (T := @analyze_and_split_recovers_video
               (example_cv2 changing_capture) example_seek
               "clip.mp4"%string default_detector 1).
  destruct (proj1 T eq_refl ltac:(discriminate) eq_refl)
    as (cuts & files & E).
  exists cuts, files. split; [exact E|].
  apply (proj2 T ltac:(cbn; lia) cuts files E).
Defined.
